(** * Video background remover: the frame pipeline and the batch runner

    A shallow embedding of [video_background_remover.py], [batch_processor.py]
    and the stop button of [gui_app.py], with the properties the specification
    states about them.

    The external collaborators (OpenCV's capture and writer, the rembg model,
    the shell running ffmpeg, the wall clock, the directory listing) are the
    fields of a record of externals; the file system the stages hand their
    frames through is a finite map from paths to file contents, threaded
    through every stage together with the clock. Directories are implicit in
    that map, so [os.makedirs] has nothing to do; logging and progress bars
    change no result and are left out. *)

From Stdlib Require Import ZArith Floats Ascii String DecimalString DecimalNat
  Sorting.Mergesort Sorting.Sorted Sorting.Permutation Orders.
From Stdlib Require DecimalFacts.
From stdpp Require Import gmap strings list fin_maps.

(** ** Paths and file names ([os.path], [pathlib], f-string formatting) *)
Module Paths.

(** [str(n)] for a non-negative integer. *)
Definition str_nat (n : nat) : string :=
  NilEmpty.string_of_uint (Nat.to_uint n).

Fixpoint zeros (k : nat) : string :=
  match k with
  | O => ""
  | S k => String "0"%char (zeros k)
  end.

(** [f"{n:06d}"]: decimal digits, padded with zeros on the left to width 6;
    a longer number is not truncated. *)
Definition fmt06 (n : nat) : string :=
  let s := str_nat n in
  zeros (6 - String.length s) +:+ s.

Definition sep : ascii := "/"%char.

Definition startswith_sep (s : string) : bool :=
  match s with
  | String c _ => Ascii.eqb c sep
  | EmptyString => false
  end.

Fixpoint endswith_sep (s : string) : bool :=
  match s with
  | EmptyString => false
  | String c EmptyString => Ascii.eqb c sep
  | String _ s' => endswith_sep s'
  end.

(** [posixpath.join(a, b)]. With more components the source's calls nest:
    [join(a, b, c) = join(join(a, b), c)]. *)
Definition join (a b : string) : string :=
  if startswith_sep b then b
  else if (a =? "")%string || endswith_sep a then a +:+ b
  else a +:+ String sep b.

Definition is_sep (c : ascii) : bool := Ascii.eqb c sep.

Fixpoint drop_while {A} (f : A -> bool) (l : list A) : list A :=
  match l with
  | [] => []
  | x :: l' => if f x then drop_while f l' else l
  end.

(** [posixpath.dirname(p)]: everything up to the last separator, with the
    trailing separators removed unless nothing else is left. *)
Definition dirname (p : string) : string :=
  let r := rev (list_ascii_of_string p) in
  let head_rev := drop_while (fun c => negb (is_sep c)) r in
  if forallb is_sep head_rev then string_of_list_ascii (rev head_rev)
  else string_of_list_ascii (rev (drop_while is_sep head_rev)).

(** Splitting at the separator, as [pathlib] parses a path. *)
Fixpoint split_sep_go (cur : list ascii) (l : list ascii) : list (list ascii) :=
  match l with
  | [] => [rev cur]
  | c :: l' => if is_sep c then rev cur :: split_sep_go [] l'
               else split_sep_go (c :: cur) l'
  end.

Definition dot : ascii := "."%char.

(** [PurePosixPath(p).name]: the last component, empty and ["."]
    components dropped. *)
Definition name (p : string) : string :=
  let parts := split_sep_go [] (list_ascii_of_string p) in
  let keep (c : list ascii) :=
    negb (bool_decide (c = [])) && negb (bool_decide (c = [dot])) in
  string_of_list_ascii (List.last (List.filter keep parts) []).

(** [PurePosixPath(p).stem]: the name without its last suffix. The suffix
    starts at the last dot when that dot is neither the first nor the last
    character of the name. *)
Definition stem (p : string) : string :=
  let n := list_ascii_of_string (name p) in
  let r := rev n in
  let after := drop_while (fun c => negb (Ascii.eqb c dot)) r in
  (* [after] is the name up to and including the last dot, reversed *)
  match after with
  | [] => string_of_list_ascii n
  | _ :: before_rev =>
      if bool_decide (before_rev = []) || bool_decide (length after = length n)
      then string_of_list_ascii n
      else string_of_list_ascii (rev before_rev)
  end.

(** What [join] puts in front of a name that does not start with the
    separator. *)
Definition dir_prefix (d : string) : string :=
  if (d =? "")%string || endswith_sep d then d else d +:+ "/".

(** Reading a decimal numeral back ([int(s)] on digits); leading zeros do
    not count. *)
Definition parse_nat (s : string) : option nat :=
  option_map Nat.of_uint (NilEmpty.uint_of_string s).

Definition frame_filename (i : nat) : string :=
  "frame_" +:+ fmt06 i +:+ ".png".

Definition processed_filename (i : nat) : string :=
  "processed_frame_" +:+ fmt06 i +:+ ".png".

End Paths.

(** ** Images and the white-backdrop flattening of [create_transparent_video] *)
Module Flatten.

Local Open Scope float_scope.

(** A decoded image, as the NumPy array [cv2.imread] returns with
    [IMREAD_UNCHANGED]: two-dimensional for a grayscale file, else rows of
    pixels of [channels] values each. Values are unsigned integers:
    [uint8] for the eight-bit files the pipeline writes, [uint16] for a
    sixteen-bit file. *)
Inductive image :=
| Img2 (rows : list (list Z))
| Img3 (channels : nat) (rows : list (list (list Z))).

(** [img.shape[2]]; a two-dimensional array has no such entry and the
    subscript raises [IndexError]. *)
Definition shape2 (img : image) : option nat :=
  match img with
  | Img2 _ => None
  | Img3 ch _ => Some ch
  end.

(** [img.shape[:2]], as (height, width). *)
Definition shape_hw (img : image) : Z * Z :=
  match img with
  | Img2 rows => (Z.of_nat (length rows), Z.of_nat (length (List.hd [] rows)))
  | Img3 _ rows => (Z.of_nat (length rows), Z.of_nat (length (List.hd [] rows)))
  end.

(** A [uint8] value promoted to [float64]. *)
Definition u8_to_float (v : Z) : float := PrimFloat.of_uint63 (Uint63.of_Z v).

(** Storing a [float64] into a [uint8] array: truncation toward zero, then
    the low eight bits. *)
Definition float_to_u8 (f : float) : Z :=
  match Prim2SF f with
  | S754_finite false m e => (Z.shiftl (Z.pos m) e) mod 256
  | S754_finite true m e => (- Z.shiftl (Z.pos m) e) mod 256
  | _ => 0
  end%Z.

(** [alpha = img[:, :, 3] / 255.0], for one pixel. *)
Definition alpha_of (a : Z) : float := u8_to_float a / 255.

(** [img[:, :, c] * alpha + 255 * (1 - alpha)], for one value. *)
Definition blend (s : Z) (alpha : float) : float :=
  u8_to_float s * alpha + 255 * (1 - alpha).

(** The value stored back into channel [c] of a pixel whose alpha is [a]. *)
Definition flatten_channel (s a : Z) : Z := float_to_u8 (blend s (alpha_of a)).

(** One pixel of a four-channel image: the three colour channels are
    blended against white with the pixel's alpha, and [img[:, :, :3]] drops
    the alpha. *)
Definition flatten_pixel (px : list Z) : list Z :=
  let a := List.nth 3 px 0%Z in
  List.map (fun s => flatten_channel s a) (List.firstn 3 px).

Definition flatten_rows (rows : list (list (list Z))) : list (list (list Z)) :=
  List.map (List.map flatten_pixel) rows.

(** The branch [if img.shape[2] == 4] of the assembling loop. The result is
    [None] where the subscript raises. *)
Definition flatten (img : image) : option image :=
  match img with
  | Img2 _ => None
  | Img3 ch rows =>
      if Nat.eqb ch 4 then Some (Img3 3 (flatten_rows rows)) else Some img
  end.

(** [img.astype(np.uint8)]: every value is cut to its low eight bits. *)
Definition astype_u8 (img : image) : image :=
  match img with
  | Img2 rows => Img2 (List.map (List.map (fun v => v mod 256)%Z) rows)
  | Img3 ch rows =>
      Img3 ch (List.map (List.map (List.map (fun v => v mod 256)%Z)) rows)
  end.

(** The same blend in exact arithmetic, rounded down: what the formula
    gives without floating-point rounding. *)
Definition exact_floor (s a : Z) : Z := ((s * a + 255 * (255 - a)) / 255)%Z.

Definition is_u8 (v : Z) : Prop := (0 <= v <= 255)%Z.

Definition u8_range : list Z := List.map Z.of_nat (List.seq 0 256).

End Flatten.

(** ** The world the pipeline runs in *)
Module World.
Import Flatten.

(** File contents ([bytes]). *)
Definition bytes := string.

(** A Python exception: its class and [str(e)]. *)
Record exn := Exn { exn_type : string; exn_msg : string }.

(** An opened [cv2.VideoCapture]: the container's metadata and the frames
    that successive [cap.read()] calls decode before [ret] turns false.
    [v_frame_count] is [CAP_PROP_FRAME_COUNT], which the container declares
    and which need not equal the number of frames that decode. *)
Record Video := {
  v_fps : float;
  v_frame_count : Z;
  v_width : Z;
  v_height : Z;
  v_frames : list image
}.

(** The file system (path to contents) and the number of [time.time()]
    readings taken so far. *)
Record world := World {
  fs : gmap string bytes;
  ticks : nat
}.

Definition set_fs (f : gmap string bytes -> gmap string bytes) (w : world) : world :=
  World (f (fs w)) (ticks w).

(** The result dictionary of [process_video]. *)
Record VideoResult := {
  input_video : string;
  output_dir : string;
  frame_count : nat;
  fps : float;
  resolution : Z * Z;
  output_mp4 : string;
  output_webm : option string;
  frames_dir : string;
  processed_frames_dir : string
}.

(** The dictionary [process_single_video] returns: the result of
    [process_video] updated with status, time and name, or the failure
    record built in the [except] branch. *)
Inductive BatchResult :=
| BSuccess (r : VideoResult) (processing_time : float) (video_name : string)
| BFailed (error : string) (processing_time : float)
          (video_name input_video output_dir : string).

Definition status (r : BatchResult) : string :=
  match r with
  | BSuccess _ _ _ => "success"
  | BFailed _ _ _ _ _ => "failed"
  end.

Definition result_video_name (r : BatchResult) : string :=
  match r with
  | BSuccess _ _ n => n
  | BFailed _ _ n _ _ => n
  end.

Definition result_processing_time (r : BatchResult) : float :=
  match r with
  | BSuccess _ t _ => t
  | BFailed _ t _ _ _ => t
  end.

Definition result_input_video (r : BatchResult) : string :=
  match r with
  | BSuccess v _ _ => input_video v
  | BFailed _ _ _ i _ => i
  end.

(** The statistics [process_batch] returns; [total_time] is missing from
    the dictionary of the empty batch. *)
Record Stats := {
  total : nat;
  success : nat;
  failed : Z;
  total_time : option float;
  results : list BatchResult
}.

(** One entry of the report's [results] list. *)
Inductive ResultInfo :=
| InfoSuccess (video_name : string) (processing_time : float)
              (frame_count : nat) (fps : float) (resolution : Z * Z)
              (output_mp4 : string) (output_webm : option string)
| InfoFailed (video_name : string) (processing_time : float) (error : string).

Record ReportData := {
  timestamp : string;
  report_model_name : string;
  report_max_frames : option Z;
  total_files : nat;
  successful : nat;
  report_failed : Z;
  total_processing_time : option float;
  report_results : list ResultInfo
}.

(** What the program takes from outside itself. *)
Record Externals := {
  (** [cv2.VideoCapture(path)]; [None] when [isOpened()] is false *)
  capture : string -> option Video;
  (** the PNG file [cv2.imwrite] produces for a frame *)
  imwrite : image -> bytes;
  (** [cv2.imread(path, IMREAD_UNCHANGED)] on a file's contents; [None]
      when it cannot be decoded *)
  imread : bytes -> option image;
  (** [rembg.remove(input_data, session=...)] *)
  rembg_remove : bytes -> exn + bytes;
  (** [cv2.VideoWriter(path, mp4v, fps, (width, height)).isOpened()] *)
  writer_opens : string -> float -> Z -> Z -> bool;
  (** [cv2.resize(img, (width, height))] *)
  resize : image -> Z -> Z -> image;
  (** the file an mp4v writer holds after the frames written to it *)
  mux : float -> Z -> Z -> list image -> bytes;
  (** [os.system(cmd)]: what the command does to the files, and its exit
      status *)
  os_system : string -> gmap string bytes -> gmap string bytes * Z;
  (** [f"{fps}"] *)
  str_float : float -> string;
  (** the n-th reading of [time.time()] *)
  time_time : nat -> float;
  (** [time.strftime('%Y-%m-%d %H:%M:%S')] taken after n clock readings *)
  strftime : nat -> string;
  (** [json.dump(report_data, f, indent=2, ensure_ascii=False)] into the
      opened report file; [None] when opening or writing raises *)
  json_dump : ReportData -> option bytes;
  (** [Path(dir).exists()] *)
  path_exists : string -> bool;
  (** [str(f) for f in Path(dir).glob(pattern)], in the order the
      directory walk yields them *)
  glob : string -> string -> list string
}.

(** *** Computations that read and write the world and may raise *)
Definition M (A : Type) : Type := world -> world * (exn + A).

Definition ret {A} (a : A) : M A := fun w => (w, inr a).

Definition raise {A} (e : exn) : M A := fun w => (w, inl e).

Definition bind {A B} (c : M A) (k : A -> M B) : M B :=
  fun w =>
    match c w with
    | (w', inl e) => (w', inl e)
    | (w', inr a) => k a w'
    end.

(** [try: c  except Exception as e: h e] *)
Definition try_except {A} (c : M A) (h : exn -> M A) : M A :=
  fun w =>
    match c w with
    | (w', inl e) => h e w'
    | (w', inr a) => (w', inr a)
    end.

(** [open(path, 'rb').read()] *)
Definition read_file (path : string) : M bytes :=
  fun w =>
    match fs w !! path with
    | Some b => (w, inr b)
    | None => (w, inl (Exn "FileNotFoundError"
                         ("[Errno 2] No such file or directory: '" +:+ path +:+ "'")))
    end.

(** [open(path, 'wb').write(data)], and the writes OpenCV does *)
Definition write_file (path : string) (data : bytes) : M unit :=
  fun w => (set_fs (insert path data) w, inr tt).

(** [time.time()] *)
Definition now (E : Externals) : M float :=
  fun w => (World (fs w) (S (ticks w)), inr (time_time E (ticks w))).

End World.

Declare Scope pipeline_scope.
Delimit Scope pipeline_scope with pipeline.
Notation "x <- c ;; k" := (World.bind c (fun x => k))
  (at level 100, c at next level, right associativity) : pipeline_scope.
Notation "c ;;; k" := (World.bind c (fun _ => k))
  (at level 100, right associativity) : pipeline_scope.

(** ** [VideoBackgroundRemover] *)
Module Remover.
Import Flatten World Paths.
Local Open Scope pipeline_scope.

(** Where frame [i] of a job is kept before and after segmentation. *)
Definition frame_path (output_dir : string) (i : nat) : string :=
  join (join output_dir "frames") (frame_filename i).

Definition processed_path (output_dir : string) (i : nat) : string :=
  join (join output_dir "processed_frames") (processed_filename i).

(** None of [frames_list] is a file the segmentation loop writes into
    [processed_dir]. *)
Definition no_alias (processed_dir : string) (frames_list : list string) : Prop :=
  forall p k, p ∈ frames_list -> p <> join processed_dir (processed_filename k).

Section WithExternals.
Variable E : Externals.

(** [max_frames and frame_count >= max_frames]: [None] and [0] are both
    false in a condition. *)
Definition cap_reached (max_frames : option Z) (frame_count : nat) : bool :=
  match max_frames with
  | None => false
  | Some m => negb (m =? 0)%Z && (m <=? Z.of_nat frame_count)%Z
  end.

(** How many more frames the extraction loop keeps when [frame_count]
    are kept already and the capture can still decode [n]. *)
Fixpoint taken (max_frames : option Z) (frame_count n : nat) : nat :=
  match n with
  | O => O
  | S n' =>
      if cap_reached max_frames frame_count then O
      else S (taken max_frames (S frame_count) n')
  end.

(** The [total] handed to the progress bar (lines 93 to 102); it takes no
    part in what is extracted or returned. *)
Definition progress_total (max_frames : option Z) (total_frames : Z) : Z :=
  match max_frames with
  | None => total_frames
  | Some m => if negb (m =? 0)%Z && (m <? total_frames)%Z then m else total_frames
  end.

(** The [while True] loop of [extract_frames] over the frames the capture
    still has to give. *)
Fixpoint extract_loop (max_frames : option Z) (frames_dir : string)
    (stream : list image) (frame_count : nat) (extracted_frames : list string)
    : M (nat * list string) :=
  match stream with
  | [] => ret (frame_count, extracted_frames)
  | frame :: stream' =>
      if cap_reached max_frames frame_count
      then ret (frame_count, extracted_frames)
      else
        let frame_path := join frames_dir (frame_filename frame_count) in
        write_file frame_path (imwrite E frame) ;;;
        extract_loop max_frames frames_dir stream'
          (S frame_count) (extracted_frames ++ [frame_path])
  end.

Definition extract_frames (video_path output_dir : string) (max_frames : option Z)
    : M (nat * float * Z * Z * list string) :=
  let frames_dir := join output_dir "frames" in
  match capture E video_path with
  | None => raise (Exn "ValueError" ("无法打开视频文件: " +:+ video_path))
  | Some cap =>
      r <- extract_loop max_frames frames_dir (v_frames cap) 0 [] ;;
      ret (fst r, v_fps cap, v_width cap, v_height cap, snd r)
  end.

(** The [except] clause logs and raises again, so what leaves the function
    is what the body raised. *)
Definition remove_background_from_frame (frame_path output_path : string) : M unit :=
  input_data <- read_file frame_path ;;
  match rembg_remove E input_data with
  | inl e => raise e
  | inr output_data => write_file output_path output_data
  end.

(** What reading [frame_path] and segmenting its contents gives in a file
    system: the two steps of [remove_background_from_frame] before it
    writes. *)
Definition segment (files : gmap string bytes) (frame_path : string) : exn + bytes :=
  match files !! frame_path with
  | Some input_data => rembg_remove E input_data
  | None => inl (Exn "FileNotFoundError"
                   ("[Errno 2] No such file or directory: '" +:+ frame_path +:+ "'"))
  end.

(** The [for i, frame_path in enumerate(frames_list)] loop, from index [i]. *)
Fixpoint process_loop (processed_dir : string) (i : nat) (frames_list : list string)
    (processed_frames : list string) : M (list string) :=
  match frames_list with
  | [] => ret processed_frames
  | frame_path :: rest =>
      let output_path := join processed_dir (processed_filename i) in
      remove_background_from_frame frame_path output_path ;;;
      process_loop processed_dir (S i) rest (processed_frames ++ [output_path])
  end.

Definition process_frames (frames_list : list string) (output_dir : string)
    : M (list string) :=
  process_loop (join output_dir "processed_frames") 0 frames_list [].

(** What the assembling loop does to one image it could read, up to the
    resizing: the array [img] that [out.write(img.astype(np.uint8))] then
    casts. *)
Definition prepare_frame (img : image) (width height : Z) : exn + image :=
  match flatten img with
  | None => inl (Exn "IndexError" "tuple index out of range")
  | Some img' =>
      inr (if bool_decide (shape_hw img' = (height, width)) then img'
           else resize E img' width height)
  end.

(** [cv2.imread(frame_path, cv2.IMREAD_UNCHANGED)]: [None] for a missing or
    undecodable file. *)
Definition imread_path (frame_path : string) : M (option image) :=
  fun w => (w, inr (fs w !! frame_path ≫= imread E)).

(** The [for frame_path in processed_frames] loop; [written] are the
    frames the writer has taken so far, each cast to [uint8] as it is
    written. *)
Fixpoint assemble_loop (output_path : string) (fps : float) (width height : Z)
    (processed_frames : list string) (written : list image) : M unit :=
  match processed_frames with
  | [] => ret tt
  | frame_path :: rest =>
      oimg <- imread_path frame_path ;;
      match oimg with
      | None => assemble_loop output_path fps width height rest written
      | Some img =>
          match prepare_frame img width height with
          | inl e => raise e
          | inr img' =>
              let written' := written ++ [astype_u8 img'] in
              write_file output_path (mux E fps width height written') ;;;
              assemble_loop output_path fps width height rest written'
          end
      end
  end.

Definition create_transparent_video (processed_frames : list string)
    (output_path : string) (fps : float) (width height : Z) : M unit :=
  if writer_opens E output_path fps width height then
    write_file output_path (mux E fps width height []) ;;;
    assemble_loop output_path fps width height processed_frames []
  else raise (Exn "ValueError" "无法创建视频文件").

Definition ffmpeg_cmd (frames_pattern output_path : string) (fps : float) : string :=
  "ffmpeg -y -framerate " +:+ str_float E fps +:+ " -i '" +:+ frames_pattern
  +:+ "' -c:v libvpx-vp9 -pix_fmt yuva420p '" +:+ output_path +:+ "'".

(** The exit status [os.system] returns is dropped. *)
Definition create_webm_with_transparency (processed_frames : list string)
    (output_path : string) (fps : float) : M unit :=
  match processed_frames with
  | [] => raise (Exn "IndexError" "list index out of range")
  | first :: _ =>
      let frames_pattern := join (dirname first) "processed_frame_%06d.png" in
      let cmd := ffmpeg_cmd frames_pattern output_path fps in
      fun w => (set_fs (fun f => fst (os_system E cmd f)) w, inr tt)
  end.

(** Step 4 of [process_video]: the path of the WebM file, or [None] when
    none was asked for or creating it raised. *)
Definition webm_step (create_webm : bool) (processed_frames : list string)
    (output_dir : string) (fps : float) : M (option string) :=
  if create_webm then
    let output_webm := join output_dir "output_transparent.webm" in
    try_except
      (create_webm_with_transparency processed_frames output_webm fps ;;;
       ret (Some output_webm))
      (fun _ => ret None)
  else ret None.

(** The outer [try] logs and raises again whatever a stage raised. *)
Definition process_video (input_video output_dir : string)
    (max_frames : option Z) (create_webm : bool) : M VideoResult :=
  ex <- extract_frames input_video output_dir max_frames ;;
  let '(frame_count, fps, width, height, frames_list) := ex in
  processed_frames <- process_frames frames_list output_dir ;;
  let output_mp4 := join output_dir "output_transparent.mp4" in
  create_transparent_video processed_frames output_mp4 fps width height ;;;
  output_webm <- webm_step create_webm processed_frames output_dir fps ;;
  ret {| input_video := input_video;
         output_dir := output_dir;
         frame_count := frame_count;
         fps := fps;
         resolution := (width, height);
         output_mp4 := output_mp4;
         output_webm := output_webm;
         frames_dir := join output_dir "frames";
         processed_frames_dir := join output_dir "processed_frames" |}.

End WithExternals.
End Remover.

(** ** Sorting strings as [sorted] does: by code unit, ascending *)
Module StringOrder <: TotalLeBool.
Definition t := string.
Definition leb : t -> t -> bool := String.leb.
Definition leb_total : forall a1 a2, leb a1 a2 = true \/ leb a2 a1 = true :=
  String.leb_total.
End StringOrder.

Module StringSort := Sort StringOrder.

(** ** [BatchVideoProcessor] *)
Module Batch.
Import Flatten World Paths Remover.
Local Open Scope pipeline_scope.

(** The attributes of a processor; [self.remover] is the model behind
    [rembg_remove]. *)
Record BatchVideoProcessor := {
  model_name : string;
  max_frames : option Z;
  self_results : list BatchResult
}.

(** [__init__] *)
Definition new_processor (model_name : string) (max_frames : option Z)
    : BatchVideoProcessor :=
  {| model_name := model_name; max_frames := max_frames; self_results := [] |}.

Definition set_results (P : BatchVideoProcessor) (rs : list BatchResult)
    : BatchVideoProcessor :=
  {| model_name := model_name P; max_frames := max_frames P; self_results := rs |}.

Definition default_extensions : list string :=
  [".mp4"; ".avi"; ".mov"; ".mkv"; ".wmv"; ".flv"; ".webm"].

(** [sorted(list(set(video_files)))] *)
Definition sorted_set (video_files : list string) : list string :=
  StringSort.sort (elements (list_to_set video_files : gset string)).

Section WithExternals.
Variable E : Externals.

(** The list built by the [for ext in extensions] loop. *)
Definition glob_all (input_dir : string) (extensions : list string) : list string :=
  List.flat_map (fun ext => glob E input_dir ("**/*" +:+ ext)) extensions.

Definition find_video_files (input_dir : string) (extensions : option (list string))
    : list string :=
  let extensions := default default_extensions extensions in
  if path_exists E input_dir
  then sorted_set (glob_all input_dir extensions)
  else [].

Definition process_single_video (P : BatchVideoProcessor)
    (video_path output_base_dir : string) (create_webm : bool) : M BatchResult :=
  let video_name := stem video_path in
  let output_dir := join output_base_dir video_name in
  start_time <- now E ;;
  try_except
    (result <- process_video E video_path output_dir (max_frames P) create_webm ;;
     end_time <- now E ;;
     ret (BSuccess result (end_time - start_time)%float video_name))
    (fun e =>
       end_time <- now E ;;
       ret (BFailed (exn_msg e) (end_time - start_time)%float
              video_name video_path output_dir)).

(** The [for i, video_path in enumerate(video_files, 1)] loop; the
    accumulator is [self.results]. *)
Fixpoint batch_loop (P : BatchVideoProcessor) (video_files : list string)
    (output_dir : string) (create_webm : bool) : M BatchVideoProcessor :=
  match video_files with
  | [] => ret P
  | video_path :: rest =>
      result <- process_single_video P video_path output_dir create_webm ;;
      batch_loop (set_results P (self_results P ++ [result])) rest
        output_dir create_webm
  end.

(** The world one clock reading later: where [process_single_video]
    calls [process_video]. *)
Definition after_tick (w : world) : world := World (fs w) (S (ticks w)).

(** [result] is what [process_single_video] returns for [video_path] in
    some state of the world. *)
Definition recorded (P : BatchVideoProcessor) (output_dir : string)
    (create_webm : bool) (video_path : string) (result : BatchResult) : Prop :=
  exists w w',
    process_single_video P video_path output_dir create_webm w = (w', inr result).

(** [sum(1 for r in self.results if r['status'] == 'success')] *)
Definition success_count (rs : list BatchResult) : nat :=
  length (List.filter (fun r => String.eqb (status r) "success") rs).

Definition result_info (r : BatchResult) : ResultInfo :=
  match r with
  | BSuccess v t n =>
      InfoSuccess n t (frame_count v) (fps v) (resolution v)
        (output_mp4 v) (output_webm v)
  | BFailed err t n _ _ => InfoFailed n t err
  end.

Definition report_data (P : BatchVideoProcessor) (stats : Stats) (stamp : string)
    : ReportData :=
  {| timestamp := stamp;
     report_model_name := model_name P;
     report_max_frames := max_frames P;
     total_files := total stats;
     successful := success stats;
     report_failed := failed stats;
     total_processing_time := total_time stats;
     report_results := List.map result_info (results stats) |}.

(** Writing the report catches its own errors. *)
Definition save_report (P : BatchVideoProcessor) (output_dir : string)
    (stats : Stats) : M unit :=
  let report_path := join output_dir "batch_processing_report.json" in
  fun w =>
    match json_dump E (report_data P stats (strftime E (ticks w))) with
    | Some text => write_file report_path text w
    | None => (w, inr tt)
    end.

Definition empty_stats : Stats :=
  {| total := 0; success := 0; failed := 0; total_time := None; results := [] |}.

Definition process_batch (P : BatchVideoProcessor) (input_dir output_dir : string)
    (create_webm : bool) (extensions : option (list string))
    : M (BatchVideoProcessor * Stats) :=
  let video_files := find_video_files input_dir extensions in
  match video_files with
  | [] => ret (P, empty_stats)
  | _ :: _ =>
      total_start_time <- now E ;;
      P' <- batch_loop P video_files output_dir create_webm ;;
      total_end_time <- now E ;;
      let success_count := success_count (self_results P') in
      let failed_count :=
        (Z.of_nat (length (self_results P')) - Z.of_nat success_count)%Z in
      let stats :=
        {| total := length video_files;
           success := success_count;
           failed := failed_count;
           total_time := Some (total_end_time - total_start_time)%float;
           results := self_results P' |} in
      save_report P' output_dir stats ;;;
      ret (P', stats)
  end.

(** The exit code of the batch command line. *)
Definition exit_code (stats : Stats) : Z :=
  if (failed stats =? 0)%Z then 0%Z else 1%Z.

End WithExternals.
End Batch.

(** ** The stop button of the graphical interface *)
Module Gui.
Import World Paths Remover.

(** The window's [self.processing] flag and, for the thread that
    [start_processing] launched, where its [process_frames] loop stands. *)
Record gui := {
  processing : bool;
  next_index : nat;
  pending : list string;
  processed_frames : list string;
  raised : option exn;
  state : world
}.

(** What can happen next: the user presses the stop button, or the
    processing thread runs the next iteration of its frame loop. *)
Inductive event := ClickStop | WorkerFrame.

Section WithExternals.
Variable E : Externals.
Variable processed_dir : string.

(** [stop_processing]: the flag is cleared (and the status text set);
    nothing else. *)
Definition stop_processing (g : gui) : gui :=
  {| processing := false;
     next_index := next_index g;
     pending := pending g;
     processed_frames := processed_frames g;
     raised := raised g;
     state := state g |}.

(** One iteration of the loop of [process_frames], as the thread of
    [process_video_thread] runs it: no read of [self.processing]. *)
Definition worker_frame (g : gui) : gui :=
  match raised g, pending g with
  | Some _, _ => g
  | None, [] => g
  | None, frame_path :: rest =>
      let output_path := join processed_dir (processed_filename (next_index g)) in
      match remove_background_from_frame E frame_path output_path (state g) with
      | (w', inl e) =>
          {| processing := processing g;
             next_index := next_index g;
             pending := pending g;
             processed_frames := processed_frames g;
             raised := Some e;
             state := w' |}
      | (w', inr _) =>
          {| processing := processing g;
             next_index := S (next_index g);
             pending := rest;
             processed_frames := processed_frames g ++ [output_path];
             raised := None;
             state := w' |}
      end
  end.

Definition step (g : gui) (ev : event) : gui :=
  match ev with
  | ClickStop => stop_processing g
  | WorkerFrame => worker_frame g
  end.

Definition run (schedule : list event) (g : gui) : gui :=
  List.fold_left step schedule g.

(** The state right after [start_processing] launched the thread and the
    thread reached its frame loop. *)
Definition started (frames_list : list string) (w : world) : gui :=
  {| processing := true;
     next_index := 0;
     pending := frames_list;
     processed_frames := [];
     raised := None;
     state := w |}.

Definition is_worker_frame (ev : event) : bool :=
  match ev with
  | WorkerFrame => true
  | ClickStop => false
  end.

(** What the processing thread has done and has left to do. *)
Definition worker_view (g : gui)
    : nat * list string * list string * option exn * world :=
  (next_index g, pending g, processed_frames g, raised g, state g).

End WithExternals.
End Gui.

(** ** A small concrete world, for running the model *)
Module Examples.
Import Flatten World Paths.

(** A frame of one pixel, in the channel order OpenCV uses (B, G, R, A). *)
Definition dot_image (v a : Z) : image := Img3 4 [[[v; 0; 0; a]]]%Z.

Definition png (img : image) : bytes :=
  match img with
  | Img3 _ [[v :: _]] => "png" +:+ str_nat (Z.to_nat v)
  | _ => "png"
  end.

Definition clip : Video :=
  {| v_fps := 10; v_frame_count := 3; v_width := 1; v_height := 1;
     v_frames := [dot_image 1 255; dot_image 2 128; dot_image 3 0] |}.

(** A container that opens and decodes no frame. *)
Definition empty_clip : Video :=
  {| v_fps := 10; v_frame_count := 0; v_width := 1; v_height := 1;
     v_frames := [] |}.

(** A video whose second frame the model rejects. *)
Definition flaky_clip : Video :=
  {| v_fps := 10; v_frame_count := 3; v_width := 1; v_height := 1;
     v_frames := [dot_image 1 255; dot_image 13 255; dot_image 3 255] |}.

Definition listing : list string :=
  ["videos/c.mp4"; "videos/a.mp4"; "videos/b.mp4"].

(** A machine with three videos under [videos/], the second unopenable,
    a model that fails on one particular frame, and no ffmpeg installed
    (the shell answers 127 and writes nothing). *)
Definition studio : Externals :=
  {| capture p :=
       if String.eqb p "videos/a.mp4" then Some clip
       else if String.eqb p "videos/c.mp4" then Some clip
       else if String.eqb p "videos/empty.mp4" then Some empty_clip
       else if String.eqb p "videos/flaky.mp4" then Some flaky_clip
       else None;
     imwrite := png;
     imread b := Some (Img3 4 [[[10; 20; 30; 128]]]%Z);
     rembg_remove b :=
       if String.eqb b "png13" then inl (Exn "RuntimeError" "model failed")
       else inr ("rgba:" +:+ b);
     writer_opens _ _ _ _ := true;
     resize img _ _ := img;
     mux _ _ _ written := "mp4:" +:+ str_nat (length written);
     os_system _ files := (files, 127%Z);
     str_float _ := "10.0";
     time_time n := PrimFloat.of_uint63 (Uint63.of_Z (Z.of_nat n));
     strftime _ := "2025-01-01 00:00:00";
     json_dump _ := Some "{}";
     path_exists d := String.eqb d "videos";
     glob d pattern :=
       if String.eqb d "videos" && String.eqb pattern "**/*.mp4"
       then listing else [] |}.

(** The same machine on a later run: the directory walk yields the same
    files in another order. *)
Definition studio_again : Externals :=
  {| capture := capture studio;
     imwrite := imwrite studio;
     imread := imread studio;
     rembg_remove := rembg_remove studio;
     writer_opens := writer_opens studio;
     resize := resize studio;
     mux := mux studio;
     os_system := os_system studio;
     str_float := str_float studio;
     time_time := time_time studio;
     strftime := strftime studio;
     json_dump := json_dump studio;
     path_exists := path_exists studio;
     glob d pattern := rev (glob studio d pattern) |}.

Definition w0 : world := World ∅ 0.

(** The files of the three-frame video once its frames are extracted. *)
Definition extracted : world :=
  fst (Remover.extract_frames studio "videos/a.mp4" "out" None w0).

End Examples.

(** ** What the assembling loop reads and hands to the writer *)
Module Assembly.
Import Flatten World Remover.

Section WithExternals.
Variable E : Externals.

(** The images [cv2.imread] gets out of the files of [processed_frames], in
    order; a missing or undecodable file gives none. *)
Definition decoded (files : gmap string bytes) (processed_frames : list string)
    : list image :=
  omap (fun frame_path => files !! frame_path ≫= imread E) processed_frames.

(** The array has a third axis, so that [img.shape[2]] is defined. *)
Definition has_channels (img : image) : Prop := is_Some (shape2 img).

(** The frame the writer takes for an image with a third axis: the
    prepared image cast to [uint8]. *)
Definition writer_frame (width height : Z) (img : image) : image :=
  match prepare_frame E img width height with
  | inr frame => astype_u8 frame
  | inl _ => img
  end.


End WithExternals.
End Assembly.

(** ** Characters of file names *)
Module Names.
Import Paths.

(** A character that is not the separator. *)
Definition plain (c : ascii) : Prop := is_sep c = false.

(** A character that is neither the separator nor the dot. *)
Definition ordinary (c : ascii) : Prop :=
  is_sep c = false /\ Ascii.eqb c dot = false.

(** A non-empty string of ordinary characters: a base name or an extension
    as in [clip.mp4]. *)
Definition word (s : string) : Prop :=
  s <> "" /\ Forall ordinary (list_ascii_of_string s).

End Names.

(** ** The form of the graphical interface and the thread it starts *)
Module GuiForm.
Import World Remover.

(** The variables behind the entry fields. *)
Record form := {
  input_video_path : string;
  output_dir_path : string;
  model_name : string;
  max_frames : string;
  create_webm : bool
}.

Section WithExternals.
Variable E : Externals.
(** [int(text)]; [None] when it raises [ValueError]. *)
Variable py_int : string -> option Z.

(** [validate_inputs]: each refusal shows a message box and returns
    [False]. *)
Definition validate_inputs (f : form) : bool :=
  if String.eqb (input_video_path f) "" then false
  else if negb (path_exists E (input_video_path f)) then false
  else if String.eqb (output_dir_path f) "" then false
  else if negb (String.eqb (max_frames f) "") then
    match py_int (max_frames f) with
    | Some m => negb (m <=? 0)%Z
    | None => false
    end
  else true.

(** The [max_frames] that [process_video_thread] computes from the field. *)
Definition thread_max_frames (f : form) : exn + option Z :=
  if negb (String.eqb (max_frames f) "") then
    match py_int (max_frames f) with
    | Some m => inr (Some m)
    | None => inl (Exn "ValueError"
                     ("invalid literal for int() with base 10: '"
                      +:+ max_frames f +:+ "'"))
    end
  else inr None.

(** The body of [process_video_thread] up to the callback it schedules: a
    result goes to [processing_completed], an exception's text to
    [processing_failed]. Loading the model is part of the externals. *)
Definition process_video_thread (f : form) : M VideoResult :=
  match thread_max_frames f with
  | inl e => raise e
  | inr mf =>
      process_video E (input_video_path f) (output_dir_path f) mf (create_webm f)
  end.

End WithExternals.

(** A reading of decimal digits, for running the model. *)
Definition digits_int (text : string) : option Z :=
  option_map Z.of_nat (Paths.parse_nat text).

End GuiForm.

(** ** A second concrete world: files that do not decode, or decode to
    grayscale or to sixteen-bit colour *)
Module Darkroom.
Import Flatten World Paths Examples.

(** The machine of [Examples.studio] with a reader that cannot decode one
    file, finds another one grayscale and a third one sixteen-bit colour. *)
Definition darkroom : Externals :=
  {| capture := capture studio;
     imwrite := imwrite studio;
     imread b :=
       if String.eqb b "rgba:png2" then None
       else if String.eqb b "rgba:png3" then Some (Img2 [[7]]%Z)
       else if String.eqb b "rgba:png4" then Some (Img3 3 [[[1000; 65535; 0]]]%Z)
       else Some (Img3 4 [[[10; 20; 30; 128]]]%Z);
     rembg_remove := rembg_remove studio;
     writer_opens := writer_opens studio;
     resize := resize studio;
     mux := mux studio;
     os_system := os_system studio;
     str_float := str_float studio;
     time_time := time_time studio;
     strftime := strftime studio;
     json_dump := json_dump studio;
     path_exists := path_exists studio;
     glob := glob studio |}.

(** Four processed frames on disk. *)
Definition shelf : world :=
  World {[ "p/0.png" := "rgba:png1"; "p/1.png" := "rgba:png2";
           "p/2.png" := "rgba:png3"; "p/3.png" := "rgba:png4" ]} 0.

(** The form of the interface filled in for the three-frame video with a
    cap of two frames. *)
Definition filled_form : GuiForm.form :=
  {| GuiForm.input_video_path := "videos/a.mp4";
     GuiForm.output_dir_path := "out";
     GuiForm.model_name := "u2net";
     GuiForm.max_frames := "2";
     GuiForm.create_webm := false |}.

(** A variant of the studio whose directory [videos] exists. *)
Definition studio_with_file : Externals :=
  {| capture := capture studio;
     imwrite := imwrite studio;
     imread := imread studio;
     rembg_remove := rembg_remove studio;
     writer_opens := writer_opens studio;
     resize := resize studio;
     mux := mux studio;
     os_system := os_system studio;
     str_float := str_float studio;
     time_time := time_time studio;
     strftime := strftime studio;
     json_dump := json_dump studio;
     path_exists p := String.eqb p "videos" || String.eqb p "videos/a.mp4";
     glob := glob studio |}.

End Darkroom.

(** * Properties *)

Module PathsFacts.
Import Paths.

Lemma parse_str_nat n : parse_nat (str_nat n) = Some n.
Proof.
  unfold parse_nat, str_nat. rewrite NilEmpty.usu. simpl.
  by rewrite DecimalNat.Unsigned.of_to.
Qed.

Lemma parse_zero_cons t : parse_nat (String "0"%char t) = parse_nat t.
Proof.
  unfold parse_nat. cbn [NilEmpty.uint_of_string].
  by destruct (NilEmpty.uint_of_string t).
Qed.

Lemma parse_zeros k s : parse_nat (zeros k +:+ s) = parse_nat s.
Proof.
  induction k as [|k IH]; [done|].
  change (zeros (S k) +:+ s) with (String "0"%char (zeros k +:+ s)).
  by rewrite parse_zero_cons.
Qed.

Lemma parse_fmt06 n : parse_nat (fmt06 n) = Some n.
Proof. unfold fmt06. by rewrite parse_zeros, parse_str_nat. Qed.

Lemma fmt06_inj i j : fmt06 i = fmt06 j -> i = j.
Proof.
  intros H. apply (f_equal parse_nat) in H.
  rewrite !parse_fmt06 in H. by injection H.
Qed.

Lemma string_app_length s t :
  String.length (s +:+ t) = String.length s + String.length t.
Proof.
  induction s as [|c s IH]; [done|].
  change (String c s +:+ t) with (String c (s +:+ t)). simpl. by rewrite IH.
Qed.

Lemma string_app_inv_tail s1 s2 t : s1 +:+ t = s2 +:+ t -> s1 = s2.
Proof.
  revert s2. induction s1 as [|c s1 IH]; intros [|c2 s2] H; [done| | |].
  - apply (f_equal String.length) in H.
    rewrite !string_app_length in H. simpl in H. lia.
  - apply (f_equal String.length) in H.
    rewrite !string_app_length in H. simpl in H. lia.
  - change (String c (s1 +:+ t) = String c2 (s2 +:+ t)) in H.
    injection H as -> H. f_equal. by apply IH.
Qed.

Lemma processed_filename_inj i j :
  processed_filename i = processed_filename j -> i = j.
Proof.
  unfold processed_filename. intros H.
  apply String.app_inj in H. apply string_app_inv_tail in H.
  by apply fmt06_inj.
Qed.

Lemma frame_filename_inj i j : frame_filename i = frame_filename j -> i = j.
Proof.
  unfold frame_filename. intros H.
  apply String.app_inj in H. apply string_app_inv_tail in H.
  by apply fmt06_inj.
Qed.

Lemma join_inj_r a b1 b2 :
  startswith_sep b1 = false -> startswith_sep b2 = false ->
  join a b1 = join a b2 -> b1 = b2.
Proof.
  intros H1 H2. unfold join. rewrite H1, H2.
  destruct ((a =? "")%string || endswith_sep a); intros H.
  - by apply String.app_inj in H.
  - apply String.app_inj in H. by injection H.
Qed.

Lemma processed_path_inj d i j :
  join d (processed_filename i) = join d (processed_filename j) -> i = j.
Proof.
  intros H. apply join_inj_r in H; [by apply processed_filename_inj|done..].
Qed.

Lemma frame_path_inj d i j :
  join d (frame_filename i) = join d (frame_filename j) -> i = j.
Proof.
  intros H. apply join_inj_r in H; [by apply frame_filename_inj|done..].
Qed.
Lemma string_app_assoc s t u : (s +:+ t) +:+ u = s +:+ (t +:+ u).
Proof.
  induction s as [|c s IH]; [done|].
  change (String c ((s +:+ t) +:+ u) = String c (s +:+ (t +:+ u))).
  by rewrite IH.
Qed.

Lemma endswith_sep_app a c b :
  endswith_sep (a +:+ String c b) = endswith_sep (String c b).
Proof.
  induction a as [|x a IH]; [done|].
  change (String x a +:+ String c b) with (String x (a +:+ String c b)).
  rewrite <- IH. by destruct a.
Qed.

Lemma join_relative d b : startswith_sep b = false -> join d b = dir_prefix d +:+ b.
Proof.
  intros Hb. unfold join, dir_prefix. rewrite Hb.
  destruct ((d =? "")%string || endswith_sep d); [done|].
  by rewrite string_app_assoc.
Qed.

Lemma dir_prefix_subdir x c b :
  endswith_sep (String c b) = false ->
  dir_prefix (x +:+ String c b) = (x +:+ String c b) +:+ "/".
Proof.
  intros Hb. unfold dir_prefix. rewrite endswith_sep_app, Hb.
  by destruct x.
Qed.

Lemma frame_path_eq d i :
  Remover.frame_path d i = dir_prefix d +:+ ("frames/" +:+ frame_filename i).
Proof.
  unfold Remover.frame_path.
  rewrite (join_relative d "frames") by done.
  rewrite join_relative by done.
  rewrite dir_prefix_subdir by done.
  by rewrite !string_app_assoc.
Qed.

Lemma processed_path_eq d i :
  Remover.processed_path d i
  = dir_prefix d +:+ ("processed_frames/" +:+ processed_filename i).
Proof.
  unfold Remover.processed_path.
  rewrite (join_relative d "processed_frames") by done.
  rewrite join_relative by done.
  rewrite dir_prefix_subdir by done.
  by rewrite !string_app_assoc.
Qed.

Lemma frame_path_not_processed d i k :
  Remover.frame_path d i <> Remover.processed_path d k.
Proof.
  rewrite frame_path_eq, processed_path_eq. intros H.
  apply String.app_inj in H. discriminate H.
Qed.

Lemma processed_path_inj' d i j :
  Remover.processed_path d i = Remover.processed_path d j -> i = j.
Proof. apply processed_path_inj. Qed.

Lemma frame_path_inj' d i j :
  Remover.frame_path d i = Remover.frame_path d j -> i = j.
Proof. apply frame_path_inj. Qed.
End PathsFacts.

Module RemoverFacts.
Import Flatten World Paths Remover PathsFacts.

Section Extraction.
Variable E : Externals.

Lemma extract_loop_spec max_frames dir stream :
  forall c acc w,
    exists w',
      extract_loop E max_frames dir stream c acc w
      = (w', inr (c + taken max_frames c (length stream),
                  acc ++ List.map (fun n => join dir (frame_filename n))
                           (seq c (taken max_frames c (length stream)))))
      /\ ticks w' = ticks w
      /\ (forall q, (forall n, q <> join dir (frame_filename n)) ->
            fs w' !! q = fs w !! q).
Proof.
  induction stream as [|frame stream IH]; intros c acc w; simpl.
  - exists w. by rewrite Nat.add_0_r, app_nil_r.
  - destruct (cap_reached max_frames c) eqn:Hcap.
    + exists w. by rewrite Nat.add_0_r, app_nil_r.
    + unfold bind, write_file at 1.
      destruct (IH (S c) (acc ++ [join dir (frame_filename c)])
                  (set_fs (insert (join dir (frame_filename c)) (imwrite E frame)) w))
        as (w' & -> & Ht & Hfs).
      exists w'. split_and!; [|done|].
      * simpl. rewrite <- app_assoc. simpl. do 3 f_equal. lia.
      * intros q Hq. rewrite Hfs by done. simpl.
        by rewrite lookup_insert_ne.
Qed.

Lemma taken_uncapped max_frames c n :
  (forall k, cap_reached max_frames k = false) -> taken max_frames c n = n.
Proof.
  intros H. revert c. induction n as [|n IH]; intros c; simpl; [done|].
  by rewrite H, IH.
Qed.

Lemma taken_capped (M : Z) c n :
  (0 < M)%Z -> (Z.of_nat c <= M)%Z ->
  Z.of_nat (taken (Some M) c n) = Z.min (Z.of_nat n) (M - Z.of_nat c).
Proof.
  intros HM. revert c. induction n as [|n IH]; intros c Hc.
  - simpl. lia.
  - cbn [taken]. unfold cap_reached.
    destruct (M =? 0)%Z eqn:H0; [lia|]. simpl.
    destruct (M <=? Z.of_nat c)%Z eqn:Hle.
    + lia.
    + rewrite Nat2Z.inj_succ, IH by lia. lia.
Qed.

Lemma taken_negative (M : Z) n : (M < 0)%Z -> taken (Some M) 0 n = 0.
Proof.
  intros HM. destruct n as [|n]; [done|]. cbn [taken]. unfold cap_reached.
  destruct (Z.eqb_spec M 0); [lia|].
  destruct (Z.leb_spec M (Z.of_nat 0)); [done|lia].
Qed.

Lemma extract_frames_spec video_path output_dir max_frames w cap :
  capture E video_path = Some cap ->
  exists w',
    extract_frames E video_path output_dir max_frames w
    = (w', inr (taken max_frames 0 (length (v_frames cap)),
                v_fps cap, v_width cap, v_height cap,
                List.map (frame_path output_dir)
                  (seq 0 (taken max_frames 0 (length (v_frames cap))))))
    /\ ticks w' = ticks w
    /\ (forall q, (forall n, q <> frame_path output_dir n) ->
          fs w' !! q = fs w !! q).
Proof.
  intros Hcap. unfold extract_frames. rewrite Hcap. unfold bind.
  destruct (extract_loop_spec max_frames (join output_dir "frames")
              (v_frames cap) 0 [] w) as (w' & -> & Ht & Hfs).
  exists w'. by split_and!.
Qed.
End Extraction.

Section Segmentation.
Variable E : Externals.

Lemma remove_background_from_frame_spec p out w :
  remove_background_from_frame E p out w
  = match segment E (fs w) p with
    | inl e => (w, inl e)
    | inr b => (set_fs (insert out b) w, inr tt)
    end.
Proof.
  unfold remove_background_from_frame, segment, bind, read_file.
  destruct (fs w !! p) as [b|]; [|done].
  by destruct (rembg_remove E b).
Qed.

Lemma segment_insert_ne files out b p :
  out <> p -> segment E (<[out:=b]> files) p = segment E files p.
Proof. intros Hne. unfold segment. by rewrite lookup_insert_ne. Qed.

Lemma process_loop_ok dir frames :
  no_alias dir frames ->
  forall i acc w,
    (forall p, p ∈ frames -> exists b, segment E (fs w) p = inr b) ->
    exists w',
      process_loop E dir i frames acc w
      = (w', inr (acc ++ List.map (fun n => join dir (processed_filename n))
                           (seq i (length frames))))
      /\ ticks w' = ticks w
      /\ (forall n p, frames !! n = Some p ->
            exists b, segment E (fs w) p = inr b
                      /\ fs w' !! join dir (processed_filename (i + n)) = Some b)
      /\ (forall q, (forall n, n < length frames ->
                       q <> join dir (processed_filename (i + n))) ->
            fs w' !! q = fs w !! q).
Proof.
  induction frames as [|p rest IH]; intros Hna i acc w Hseg.
  - exists w. simpl. rewrite app_nil_r. split_and!; [done..| |done].
    intros n p Hn. by rewrite lookup_nil in Hn.
  - cbn [process_loop]. unfold bind at 1.
    rewrite remove_background_from_frame_spec.
    destruct (Hseg p) as [b Hb]; [by left|]. rewrite Hb.
    set (out := join dir (processed_filename i)).
    set (w1 := set_fs (insert out b) w).
    assert (Hna' : no_alias dir rest).
    { intros q k Hq. apply Hna. by right. }
    assert (Hseg' : forall q, q ∈ rest -> exists b', segment E (fs w1) q = inr b').
    { intros q Hq. destruct (Hseg q) as [b' Hb']; [by right|].
      exists b'. unfold w1, set_fs. simpl. rewrite segment_insert_ne; [done|].
      intros Heq. apply (Hna q i); [by right|done]. }
    destruct (IH Hna' (S i) (acc ++ [out]) w1 Hseg')
      as (w' & Hrun & Ht & Hout & Hrest).
    exists w'. rewrite Hrun. split_and!.
    + simpl. by rewrite <- app_assoc.
    + done.
    + intros [|n] q Hn; simpl in Hn.
      * injection Hn as <-. exists b. split; [done|].
        rewrite Nat.add_0_r. rewrite Hrest.
        { unfold w1, set_fs. simpl. by rewrite lookup_insert_eq. }
        intros n Hn Heq. apply processed_path_inj in Heq. lia.
      * destruct (Hout n q Hn) as (b' & Hb' & Hl).
        exists b'. split.
        { unfold w1, set_fs in Hb'. simpl in Hb'.
          rewrite segment_insert_ne in Hb'; [done|].
          intros Heq. apply (Hna q i); [|done].
          right. by eapply list_elem_of_lookup_2. }
        by replace (i + S n) with (S i + n) by lia.
    + intros q Hq. rewrite Hrest.
      * unfold w1, set_fs. simpl. rewrite lookup_insert_ne; [done|].
        intros Heq. apply (Hq 0); [simpl; lia|]. by rewrite Nat.add_0_r.
      * intros n Hn. replace (S i + n) with (i + S n) by lia.
        apply Hq. simpl. lia.
Qed.

Lemma process_loop_app dir l1 l2 :
  forall i acc w,
    process_loop E dir i (l1 ++ l2) acc w
    = match process_loop E dir i l1 acc w with
      | (w', inl e) => (w', inl e)
      | (w', inr acc') => process_loop E dir (i + length l1) l2 acc' w'
      end.
Proof.
  induction l1 as [|p l1 IH]; intros i acc w.
  - simpl. by rewrite Nat.add_0_r.
  - cbn [app process_loop]. unfold bind.
    destruct (remove_background_from_frame E p _ w) as [w1 [e|[]]]; [done|].
    rewrite IH. simpl. by replace (i + S (length l1)) with (S i + length l1) by lia.
Qed.

Lemma process_loop_fail dir frames j pj e :
  no_alias dir frames ->
  forall i acc w,
    (forall n p, n < j -> frames !! n = Some p -> exists b, segment E (fs w) p = inr b) ->
    frames !! j = Some pj ->
    segment E (fs w) pj = inl e ->
    exists w',
      process_loop E dir i frames acc w = (w', inl e)
      /\ ticks w' = ticks w
      /\ (forall n p, n < j -> frames !! n = Some p ->
            exists b, segment E (fs w) p = inr b
                      /\ fs w' !! join dir (processed_filename (i + n)) = Some b)
      /\ (forall q, (forall n, n < j -> q <> join dir (processed_filename (i + n))) ->
            fs w' !! q = fs w !! q).
Proof.
  intros Hna i acc w Hbefore Hj Hfail.
  assert (Hsplit : frames = take j frames ++ pj :: drop (S j) frames).
  { by rewrite <- (take_drop_middle frames j pj Hj) at 1. }
  assert (Hlen : length (take j frames) = j).
  { apply length_take_le. apply lookup_lt_Some in Hj. lia. }
  assert (Hna1 : no_alias dir (take j frames)).
  { intros q k Hq. apply Hna. by apply (subseteq_take j frames). }
  assert (Hseg1 : forall p, p ∈ take j frames -> exists b, segment E (fs w) p = inr b).
  { intros p Hp. apply list_elem_of_lookup in Hp as [n Hn].
    apply lookup_take_Some in Hn as [Hn Hlt]. by eapply Hbefore. }
  destruct (process_loop_ok dir (take j frames) Hna1 i acc w Hseg1)
    as (w1 & Hrun & Ht & Hout & Hrest).
  rewrite Hlen in Hrun, Hrest.
  exists w1.
  replace (process_loop E dir i frames acc w)
    with (process_loop E dir i (take j frames ++ pj :: drop (S j) frames) acc w)
    by (by rewrite <- Hsplit).
  rewrite process_loop_app, Hrun.
  cbn [process_loop]. unfold bind. rewrite remove_background_from_frame_spec.
  assert (Hpj : segment E (fs w1) pj = inl e).
  { unfold segment. rewrite Hrest; [done|].
    intros n Hn. apply Hna. by eapply list_elem_of_lookup_2. }
  rewrite Hpj. split_and!; [done..| |done].
  intros n p Hn Hp. apply Hout. by rewrite lookup_take_lt.
Qed.
End Segmentation.
End RemoverFacts.

Module FlattenFacts.
Import Flatten World Remover.

Lemma u8_in_range v : is_u8 v -> In v u8_range.
Proof.
  intros [Hlo Hhi]. unfold u8_range. apply in_map_iff.
  exists (Z.to_nat v). split; [lia|]. apply in_seq. lia.
Qed.

(** A check that holds on each of the 256 values holds on every [uint8]. *)
Lemma u8_forall (P : Z -> bool) :
  forallb P u8_range = true -> forall v, is_u8 v -> P v = true.
Proof.
  intros H v Hv. rewrite forallb_forall in H. apply H. by apply u8_in_range.
Qed.



(** Against the formula in exact arithmetic the stored value is the
    rounded-down blend, or one less where the floating-point sum falls just
    short of an integer. *)
Lemma flatten_channel_near_exact s a :
  is_u8 s -> is_u8 a ->
  (exact_floor s a - 1 <= flatten_channel s a <= exact_floor s a)%Z.
Proof.
  intros Hs Ha.
  assert (H : ((exact_floor s a - 1 <=? flatten_channel s a)
               && (flatten_channel s a <=? exact_floor s a))%Z = true).
  { apply (u8_forall (fun a => forallb (fun s =>
             (exact_floor s a - 1 <=? flatten_channel s a)
             && (flatten_channel s a <=? exact_floor s a))%Z u8_range)) in Ha.
    - rewrite forallb_forall in Ha. apply Ha. by apply u8_in_range.
    - vm_compute. reflexivity. }
  apply andb_true_iff in H as [H1 H2]. lia.
Qed.


End FlattenFacts.

Module PipelineFacts.
Import Flatten World Paths Remover PathsFacts RemoverFacts FlattenFacts Examples.

Lemma frame_paths_no_alias output_dir n :
  no_alias (join output_dir "processed_frames")
    (List.map (frame_path output_dir) (seq 0 n)).
Proof.
  intros p k Hp Heq. apply list_elem_of_In, in_map_iff in Hp as (i & <- & _).
  by apply (frame_path_not_processed output_dir i k).
Qed.

(** C2. For every sequence of K frame paths that can be read and segmented
    (none of them one of the files being written), [process_frames]
    returns exactly K paths; the path at index i is
    [processed_frame_{i:06d}.png] in the processed-frames directory and the
    file there holds the segmentation of the input at index i. *)
Theorem process_frames_order_preserving (E : Externals)
    (frames_list : list string) (output_dir : string) (w : world) :
  no_alias (join output_dir "processed_frames") frames_list ->
  (forall p, p ∈ frames_list -> exists b, segment E (fs w) p = inr b) ->
  exists w' processed,
    process_frames E frames_list output_dir w = (w', inr processed)
    /\ length processed = length frames_list
    /\ forall i p, frames_list !! i = Some p ->
         let out := join (join output_dir "processed_frames")
                      ("processed_frame_" +:+ fmt06 i +:+ ".png") in
         processed !! i = Some out
         /\ exists b, segment E (fs w) p = inr b /\ fs w' !! out = Some b.
Proof.
  intros Hna Hseg.
  destruct (process_loop_ok E _ frames_list Hna 0 [] w Hseg)
    as (w' & Hrun & _ & Hout & _).
  exists w', (List.map (processed_path output_dir) (seq 0 (length frames_list))).
  split_and!.
  - exact Hrun.
  - by rewrite length_map, length_seq.
  - intros i p Hi. split.
    + change (List.map (processed_path output_dir) (seq 0 (length frames_list)))
        with (processed_path output_dir <$> seq 0 (length frames_list)).
      rewrite list_lookup_fmap, lookup_seq_lt; [done|].
      by eapply lookup_lt_Some.
    + destruct (Hout i p Hi) as (b & Hb & Hl). by exists b.
Qed.

Lemma process_frames_order_preserving_witness :
  exists w' processed,
    process_frames studio
      ["in/x.png"; "in/y.png"] "out"
      (World {["in/x.png" := "png1"; "in/y.png" := "png2"]} 0)
    = (w', inr processed)
    /\ processed = ["out/processed_frames/processed_frame_000000.png";
                    "out/processed_frames/processed_frame_000001.png"]
    /\ fs w' !! "out/processed_frames/processed_frame_000001.png"
       = Some "rgba:png2".
Proof.
  destruct (process_frames_order_preserving studio
              ["in/x.png"; "in/y.png"] "out"
              (World {["in/x.png" := "png1"; "in/y.png" := "png2"]} 0))
    as (w' & processed & Hrun & Hlen & Hidx).
  - intros p k Hp Heq.
    assert (Hc : String.get 0 p = Some "i"%char).
    { apply list_elem_of_In in Hp. simpl in Hp.
      destruct Hp as [<-|[<-|[]]]; reflexivity. }
    rewrite Heq in Hc. vm_compute in Hc. discriminate Hc.
  - intros p Hp. apply list_elem_of_In in Hp. simpl in Hp.
    destruct Hp as [<-|[<-|[]]]; eexists; vm_compute; reflexivity.
  - exists w', processed. split; [exact Hrun|].
    destruct (Hidx 0 "in/x.png" eq_refl) as [H0 _].
    destruct (Hidx 1 "in/y.png" eq_refl) as [H1 (b & Hb & Hf)].
    split.
    + destruct processed as [|a [|b' [|c l]]]; simpl in Hlen; try discriminate.
      vm_compute in H0, H1. by injection H0 as ->; injection H1 as ->.
    + vm_compute in Hb. injection Hb as <-. exact Hf.
Defined.

Lemma extract_frames_inv (E : Externals) input_video output_dir max_frames w w1
    cnt fps wd ht frames_list :
  extract_frames E input_video output_dir max_frames w
  = (w1, inr (cnt, fps, wd, ht, frames_list)) ->
  length frames_list = cnt
  /\ frames_list = List.map (frame_path output_dir) (seq 0 cnt)
  /\ ticks w1 = ticks w
  /\ (forall q, (forall n, q <> frame_path output_dir n) -> fs w1 !! q = fs w !! q).
Proof.
  intros Hex. destruct (capture E input_video) as [cap|] eqn:Hcap.
  - destruct (extract_frames_spec E input_video output_dir max_frames w cap Hcap)
      as (w' & Hrun & Ht & Hfs).
    rewrite Hrun in Hex. injection Hex as <- <- <- <- <- <-.
    split_and!; [|done..]. by rewrite length_map, length_seq.
  - unfold extract_frames in Hex. rewrite Hcap in Hex. discriminate Hex.
Qed.

Lemma process_video_unfold (E : Externals) input_video output_dir max_frames
    create_webm w :
  process_video E input_video output_dir max_frames create_webm w
  = match extract_frames E input_video output_dir max_frames w with
    | (w1, inl e) => (w1, inl e)
    | (w1, inr (frame_count, fps, width, height, frames_list)) =>
        match process_frames E frames_list output_dir w1 with
        | (w2, inl e) => (w2, inl e)
        | (w2, inr processed) =>
            let output_mp4 := join output_dir "output_transparent.mp4" in
            match create_transparent_video E processed output_mp4 fps width height w2 with
            | (w3, inl e) => (w3, inl e)
            | (w3, inr _) =>
                match webm_step E create_webm processed output_dir fps w3 with
                | (w4, inl e) => (w4, inl e)
                | (w4, inr output_webm) =>
                    (w4, inr {| input_video := input_video;
                                output_dir := output_dir;
                                frame_count := frame_count;
                                fps := fps;
                                resolution := (width, height);
                                output_mp4 := output_mp4;
                                output_webm := output_webm;
                                frames_dir := join output_dir "frames";
                                processed_frames_dir :=
                                  join output_dir "processed_frames" |})
                end
            end
        end
    end.
Proof.
  unfold process_video, bind.
  destruct (extract_frames E _ _ _ w) as [w1 [e|[[[[cnt fps] wd] ht] fl]]]; [done|].
  destruct (process_frames E fl output_dir w1) as [w2 [e|processed]]; [done|].
  destruct (create_transparent_video E processed _ fps wd ht w2) as [w3 [e|[]]]; [done|].
  by destruct (webm_step E create_webm processed output_dir fps w3) as [w4 [e|ow]].
Qed.

(** C1. When [remove_background_from_frame] raises on the frame at index j
    (the frames before it having been segmented), [process_frames] raises
    that error, no processed frame of index j or more has been written,
    and the error leaves [process_video]: the job fails. *)
Theorem fail_fast (E : Externals) (input_video output_dir : string)
    (max_frames : option Z) (create_webm : bool) (w w1 : world)
    (cnt : nat) (fps : float) (wd ht : Z) (frames_list : list string)
    (j : nat) (pj : string) (wj : world) (e : exn) :
  extract_frames E input_video output_dir max_frames w
  = (w1, inr (cnt, fps, wd, ht, frames_list)) ->
  (forall i p, i < j -> frames_list !! i = Some p ->
     exists wi, remove_background_from_frame E p (processed_path output_dir i) w1
                = (wi, inr tt)) ->
  frames_list !! j = Some pj ->
  remove_background_from_frame E pj (processed_path output_dir j) w1 = (wj, inl e) ->
  exists w',
    process_frames E frames_list output_dir w1 = (w', inl e)
    /\ (forall i, j <= i ->
          fs w' !! processed_path output_dir i = fs w !! processed_path output_dir i)
    /\ (forall i, i < j -> is_Some (fs w' !! processed_path output_dir i))
    /\ process_video E input_video output_dir max_frames create_webm w = (w', inl e).
Proof.
  intros Hex Hbefore Hj Hfail.
  destruct (extract_frames_inv E _ _ _ _ _ _ _ _ _ _ Hex) as (Hlen & Hfl & _ & Hfs).
  assert (Hna : no_alias (join output_dir "processed_frames") frames_list).
  { rewrite Hfl. apply frame_paths_no_alias. }
  assert (Hseg : forall i p, i < j -> frames_list !! i = Some p ->
                   exists b, segment E (fs w1) p = inr b).
  { intros i p Hi Hp. destruct (Hbefore i p Hi Hp) as [wi Hwi].
    rewrite remove_background_from_frame_spec in Hwi.
    destruct (segment E (fs w1) p) as [e'|b]; [discriminate Hwi|by exists b]. }
  assert (Hsegj : segment E (fs w1) pj = inl e).
  { rewrite remove_background_from_frame_spec in Hfail.
    destruct (segment E (fs w1) pj) as [e'|b]; [|discriminate Hfail].
    by injection Hfail as _ ->. }
  destruct (process_loop_fail E _ frames_list j pj e Hna 0 [] w1 Hseg Hj Hsegj)
    as (w' & Hrun & _ & Hout & Hrest).
  exists w'. split_and!.
  - exact Hrun.
  - intros i Hi. rewrite Hrest.
    + apply Hfs. intros n Heq. symmetry in Heq.
      by apply frame_path_not_processed in Heq.
    + intros n Hn Heq. apply processed_path_inj in Heq. simpl in Heq. lia.
  - intros i Hi. destruct (lookup_lt_is_Some_2 frames_list i) as [p Hp].
    { apply lookup_lt_Some in Hj. lia. }
    destruct (Hout i p Hi Hp) as (b & _ & Hb). by exists b.
  - rewrite process_video_unfold, Hex. unfold process_frames in Hrun. 
    unfold process_frames. by rewrite Hrun.
Qed.

Lemma fail_fast_witness :
  exists w',
    process_video studio "videos/flaky.mp4" "out" None true w0
    = (w', inl (Exn "RuntimeError" "model failed"))
    /\ fs w' !! processed_path "out" 1 = None
    /\ fs w' !! processed_path "out" 2 = None
    /\ is_Some (fs w' !! processed_path "out" 0).
Proof.
  destruct (extract_frames studio "videos/flaky.mp4" "out" None w0)
    as [w1 r] eqn:Hex.
  assert (Hr : r = inr (3, v_fps flaky_clip, 1%Z, 1%Z,
                        List.map (frame_path "out") (seq 0 3))).
  { vm_compute in Hex. by injection Hex as _ <-. }
  subst r.
  assert (Hw1 : w1 = fst (extract_frames studio "videos/flaky.mp4" "out" None w0)).
  { by rewrite Hex. }
  destruct (remove_background_from_frame studio (frame_path "out" 1)
              (processed_path "out" 1) w1) as [wj rj] eqn:Hj.
  assert (Hrj : rj = inl (Exn "RuntimeError" "model failed")).
  { rewrite Hw1 in Hj. vm_compute in Hj. by injection Hj as _ <-. }
  subst rj.
  destruct (fail_fast studio "videos/flaky.mp4" "out" None true w0 w1 3
              (v_fps flaky_clip) 1 1 (List.map (frame_path "out") (seq 0 3))
              1 (frame_path "out" 1) wj (Exn "RuntimeError" "model failed")
              Hex) as (w' & _ & Hafter & Hbefore & Hpv).
  - intros i p Hi Hp. assert (i = 0) as -> by lia.
    injection Hp as <-. rewrite Hw1. eexists. vm_compute. reflexivity.
  - reflexivity.
  - exact Hj.
  - exists w'. split_and!.
    + exact Hpv.
    + rewrite (Hafter 1) by lia. apply lookup_empty.
    + rewrite (Hafter 2) by lia. apply lookup_empty.
    + apply Hbefore. lia.
Defined.

(** C3, the claim at a cap of zero: the video has three frames, the cap is
    below that, and three frames are extracted and reported, not zero. *)
Lemma extract_frames_zero_cap_counterexample :
  exists w' frames_list,
    extract_frames studio "videos/a.mp4" "out" (Some 0%Z) w0
    = (w', inr (3, v_fps clip, v_width clip, v_height clip, frames_list))
    /\ capture studio "videos/a.mp4" = Some clip
    /\ (0 < Z.of_nat (length (v_frames clip)))%Z
    /\ Z.of_nat 3 <> 0%Z.
Proof.
  eexists _, _. split_and!; [vm_compute; reflexivity|reflexivity|simpl; lia|lia].
Qed.

(** C3, amended. For a video with N decodable frames and a cap M that is
    not negative: when 0 < M < N exactly M frames are extracted and
    reported; when 0 < M and M >= N, and when M = 0 (which the loop treats
    as no cap), extraction runs to the end without error and N frames are
    reported. *)
Theorem extract_frames_cap (E : Externals) (video_path output_dir : string)
    (M : Z) (w : world) (cap : Video) :
  capture E video_path = Some cap ->
  (0 <= M)%Z ->
  exists w' cnt frames_list,
    extract_frames E video_path output_dir (Some M) w
    = (w', inr (cnt, v_fps cap, v_width cap, v_height cap, frames_list))
    /\ length frames_list = cnt
    /\ ((0 < M < Z.of_nat (length (v_frames cap)))%Z -> Z.of_nat cnt = M)
    /\ ((0 < M)%Z -> (Z.of_nat (length (v_frames cap)) <= M)%Z ->
          cnt = length (v_frames cap))
    /\ (M = 0%Z -> cnt = length (v_frames cap)).
Proof.
  intros Hcap HM.
  destruct (extract_frames_spec E video_path output_dir (Some M) w cap Hcap)
    as (w' & Hrun & _).
  eexists w', _, _. split; [exact Hrun|]. split_and!.
  - by rewrite length_map, length_seq.
  - intros [H0 HN]. rewrite taken_capped by (simpl; lia). simpl. lia.
  - intros H0 HN. apply Nat2Z.inj. rewrite taken_capped by (simpl; lia).
    simpl. lia.
  - intros ->. by apply taken_uncapped.
Qed.

Lemma extract_frames_cap_witness :
  exists w' frames_list,
    extract_frames studio "videos/a.mp4" "out" (Some 2%Z) w0
    = (w', inr (2, v_fps clip, v_width clip, v_height clip, frames_list))
    /\ length frames_list = 2.
Proof.
  destruct (extract_frames_cap studio "videos/a.mp4" "out" 2 w0 clip)
    as (w' & cnt & fl & Hrun & Hlen & Hlt & _).
  - reflexivity.
  - lia.
  - assert (cnt = 2) as -> by (apply Nat2Z.inj, Hlt; simpl; lia).
    by exists w', fl.
Defined.

(** C4, the claim on a container that opens and decodes no frame: the job
    returns a result, with a frame count of zero, and raises nothing. *)
Lemma zero_frames_counterexample :
  exists w1 w' r,
    extract_frames studio "videos/empty.mp4" "out" None w0
    = (w1, inr (0, v_fps empty_clip, 1%Z, 1%Z, []))
    /\ process_video studio "videos/empty.mp4" "out" None true w0 = (w', inr r)
    /\ frame_count r = 0.
Proof. eexists _, _, _. split_and!; vm_compute; reflexivity. Qed.

(** C4, amended. When extraction produces zero frames the pipeline raises
    no error of its own: if the opaque writer opens, the job returns a
    result with a frame count of zero, the MP4 path (an empty stream is
    written there) and no WebM path, the transcoder not being run; if the
    writer does not open, the job fails with the writer's error. *)
Theorem zero_frames_reported_as_success (E : Externals)
    (input_video output_dir : string) (max_frames : option Z)
    (create_webm : bool) (w w1 : world) (fps : float) (wd ht : Z)
    (frames_list : list string) :
  extract_frames E input_video output_dir max_frames w
  = (w1, inr (0, fps, wd, ht, frames_list)) ->
  process_video E input_video output_dir max_frames create_webm w
  = let output_mp4 := join output_dir "output_transparent.mp4" in
    if writer_opens E output_mp4 fps wd ht
    then (set_fs (insert output_mp4 (mux E fps wd ht [])) w1,
          inr {| input_video := input_video;
                 output_dir := output_dir;
                 frame_count := 0;
                 fps := fps;
                 resolution := (wd, ht);
                 output_mp4 := output_mp4;
                 output_webm := None;
                 frames_dir := join output_dir "frames";
                 processed_frames_dir := join output_dir "processed_frames" |})
    else (w1, inl (Exn "ValueError" "无法创建视频文件")).
Proof.
  intros Hex.
  destruct (extract_frames_inv E _ _ _ _ _ _ _ _ _ _ Hex) as (Hlen & _).
  apply nil_length_inv in Hlen. subst frames_list.
  rewrite process_video_unfold, Hex. cbn [process_frames process_loop ret].
  cbv zeta. unfold create_transparent_video.
  destruct (writer_opens E _ fps wd ht); [|done].
  unfold bind, write_file. cbn [assemble_loop ret].
  by destruct create_webm.
Qed.

Lemma zero_frames_reported_as_success_witness :
  exists w' r,
    process_video studio "videos/empty.mp4" "out" None true w0 = (w', inr r)
    /\ frame_count r = 0 /\ output_webm r = None.
Proof.
  pose proof (zero_frames_reported_as_success studio "videos/empty.mp4" "out"
                None true w0 w0 (v_fps empty_clip) 1 1 [] eq_refl) as H.
  cbv zeta in H. change (writer_opens studio _ _ _ _) with true in H.
  cbv iota in H. eexists _, _. split; [exact H|]. by split.
Defined.

(** Whatever exit status the shell reports, the WebM path is returned as
    soon as there is a first processed frame to build the command from. *)
Lemma webm_step_ignores_exit_status (E : Externals) first rest output_dir fps w :
  webm_step E true (first :: rest) output_dir fps w
  = (set_fs (fun f => fst (os_system E
               (ffmpeg_cmd E (join (dirname first) "processed_frame_%06d.png")
                  (join output_dir "output_transparent.webm") fps) f)) w,
     inr (Some (join output_dir "output_transparent.webm"))).
Proof. reflexivity. Qed.

(** C5, at a job whose transcoder fails (the shell answers 127 and writes
    no file): the job succeeds and the MP4 is there, but the result still
    names the WebM file, which does not exist. *)
Theorem webm_reported_though_transcoder_failed :
  exists w' r,
    process_video studio "videos/a.mp4" "out" None true w0 = (w', inr r)
    /\ snd (os_system studio
              (ffmpeg_cmd studio "out/processed_frames/processed_frame_%06d.png"
                 "out/output_transparent.webm" (v_fps clip)) (fs w')) = 127%Z
    /\ output_mp4 r = "out/output_transparent.mp4"
    /\ is_Some (fs w' !! "out/output_transparent.mp4")
    /\ fs w' !! "out/output_transparent.webm" = None
    /\ output_webm r = Some "out/output_transparent.webm".
Proof.
  eexists _, _. split; [vm_compute; reflexivity|].
  split_and!; try reflexivity. by eexists.
Qed.


End PipelineFacts.

Module DiscoveryFacts.
Import World Paths Batch Examples.

Lemma leb_transitive : Transitive (fun x y : string => is_true (String.leb x y)).
Proof.
  intros x y z Hxy Hyz. unfold is_true in *.
  apply Is_true_true. apply Is_true_true in Hxy, Hyz.
  exact (transitivity (R := String.le) Hxy Hyz).
Qed.

Lemma sorted_set_sorted l :
  StronglySorted (fun x y => String.leb x y = true) (sorted_set l).
Proof. apply StringSort.StronglySorted_sort, leb_transitive. Qed.

Lemma sorted_set_NoDup l : NoDup (sorted_set l).
Proof.
  unfold sorted_set. rewrite <- StringSort.Permuted_sort. apply NoDup_elements.
Qed.

Lemma elem_of_sorted_set l x : x ∈ sorted_set l <-> x ∈ l.
Proof.
  unfold sorted_set. rewrite <- StringSort.Permuted_sort.
  by rewrite elem_of_elements, elem_of_list_to_set.
Qed.

(** The result depends on which paths were found, not on their order or
    on how often each was found. *)
Lemma sorted_set_canonical l1 l2 :
  (forall x, x ∈ l1 <-> x ∈ l2) -> sorted_set l1 = sorted_set l2.
Proof.
  intros H. unfold sorted_set. do 2 f_equal.
  apply set_eq. intros x. by rewrite !elem_of_list_to_set.
Qed.

Lemma elem_of_glob_all E d exts x :
  x ∈ glob_all E d exts
  <-> exists ext, ext ∈ exts /\ x ∈ glob E d ("**/*" +:+ ext).
Proof.
  unfold glob_all. rewrite list_elem_of_In, in_flat_map.
  split; intros (ext & H1 & H2); exists ext; by rewrite ?list_elem_of_In in *.
Qed.

(** C8. [find_video_files] returns the paths the patterns match, each
    once, in ascending lexical order; and a second discovery over a tree
    in which every pattern matches the same paths (in whatever order the
    walk yields them) returns the same list. *)
Theorem find_video_files_sorted_deterministic (E E' : Externals)
    (input_dir : string) (extensions : option (list string)) :
  path_exists E' input_dir = path_exists E input_dir ->
  (forall pattern x, x ∈ glob E' input_dir pattern <-> x ∈ glob E input_dir pattern) ->
  StronglySorted (fun x y => String.leb x y = true)
    (find_video_files E input_dir extensions)
  /\ NoDup (find_video_files E input_dir extensions)
  /\ (forall x, x ∈ find_video_files E input_dir extensions
                <-> path_exists E input_dir = true
                    /\ exists ext, ext ∈ default default_extensions extensions
                                   /\ x ∈ glob E input_dir ("**/*" +:+ ext))
  /\ find_video_files E' input_dir extensions
     = find_video_files E input_dir extensions.
Proof.
  intros Hex Hglob. unfold find_video_files. rewrite Hex.
  destruct (path_exists E input_dir).
  - split_and!.
    + apply sorted_set_sorted.
    + apply sorted_set_NoDup.
    + intros x. rewrite elem_of_sorted_set, elem_of_glob_all.
      split; [by intros ?|by intros [_ ?]].
    + apply sorted_set_canonical. intros x. rewrite !elem_of_glob_all.
      split; intros (ext & H1 & H2); exists ext; split; try done; by apply Hglob.
  - split_and!; [constructor|constructor| |done].
    intros x. split; [by intros ?%elem_of_nil|by intros [? _]].
Qed.

Lemma find_video_files_sorted_deterministic_witness :
  find_video_files studio_again "videos" None
  = ["videos/a.mp4"; "videos/b.mp4"; "videos/c.mp4"]
  /\ NoDup (find_video_files studio "videos" None).
Proof.
  destruct (find_video_files_sorted_deterministic studio studio_again
              "videos" None) as (_ & Hnd & _ & Heq).
  - reflexivity.
  - intros pattern x. simpl. by rewrite list_elem_of_In, <- in_rev, <- list_elem_of_In.
  - split; [|exact Hnd]. rewrite Heq. vm_compute. reflexivity.
Defined.
End DiscoveryFacts.

Module BatchFacts.
Import World Paths Remover Batch PipelineFacts Examples.

Section WithExternals.
Variable E : Externals.

Lemma process_single_video_unfold P video_path output_base_dir create_webm w :
  process_single_video E P video_path output_base_dir create_webm w
  = let video_name := stem video_path in
    let output_dir := join output_base_dir video_name in
    match process_video E video_path output_dir (max_frames P) create_webm
            (after_tick w) with
    | (w2, inr result) =>
        (after_tick w2,
         inr (BSuccess result
                (time_time E (ticks w2) - time_time E (ticks w))%float video_name))
    | (w2, inl e) =>
        (after_tick w2,
         inr (BFailed (exn_msg e)
                (time_time E (ticks w2) - time_time E (ticks w))%float
                video_name video_path output_dir))
    end.
Proof.
  unfold process_single_video, bind, try_except, now, after_tick. cbv zeta.
  cbn [fs ticks].
  by destruct (process_video E video_path _ (max_frames P) create_webm _)
    as [w2 [e|result]].
Qed.

Lemma process_video_input_video input_video output_dir max_frames create_webm
    w w' r :
  process_video E input_video output_dir max_frames create_webm w = (w', inr r) ->
  World.input_video r = input_video.
Proof.
  rewrite process_video_unfold.
  destruct (extract_frames E _ _ _ w) as [w1 [e|[[[[cnt fps] wd] ht] fl]]];
    [discriminate|].
  destruct (process_frames E fl output_dir w1) as [w2 [e|processed]];
    [discriminate|].
  cbv zeta.
  destruct (create_transparent_video E processed _ fps wd ht w2) as [w3 [e|[]]];
    [discriminate|].
  destruct (webm_step E create_webm processed output_dir fps w3) as [w4 [e|ow]];
    [discriminate|].
  by intros [= _ <-].
Qed.

Lemma recorded_same_max_frames P P' output_dir create_webm video_path r :
  max_frames P' = max_frames P ->
  recorded E P' output_dir create_webm video_path r ->
  recorded E P output_dir create_webm video_path r.
Proof.
  intros Hmf (w & w' & H). exists w, w'.
  rewrite process_single_video_unfold in *. by rewrite <- Hmf.
Qed.

Lemma batch_loop_spec output_dir create_webm video_files :
  forall P w,
    exists w' new,
      batch_loop E P video_files output_dir create_webm w
      = (w', inr (set_results P (self_results P ++ new)))
      /\ Forall2 (recorded E P output_dir create_webm) video_files new.
Proof.
  induction video_files as [|video_path rest IH]; intros P w.
  - exists w, []. split; [|constructor].
    simpl. rewrite app_nil_r. by destruct P.
  - cbn [batch_loop]. unfold bind at 1.
    destruct (process_single_video E P video_path output_dir create_webm w)
      as [w1 [e|r]] eqn:Hone.
    { rewrite process_single_video_unfold in Hone. cbv zeta in Hone.
      by destruct (process_video E _ _ _ _ _) as [w2 [e'|v]]. }
    destruct (IH (set_results P (self_results P ++ [r])) w1)
      as (w' & new & Hrun & Hrec).
    exists w', (r :: new). split.
    + rewrite Hrun. simpl. by rewrite <- app_assoc.
    + constructor; [by exists w, w1|].
      eapply Forall2_impl; [exact Hrec|].
      intros f r'. by apply recorded_same_max_frames.
Qed.

Lemma success_count_app rs1 rs2 :
  success_count (rs1 ++ rs2) = success_count rs1 + success_count rs2.
Proof. unfold success_count. by rewrite List.filter_app, length_app. Qed.

Lemma success_count_le rs : success_count rs <= length rs.
Proof. unfold success_count. apply List.filter_length_le. Qed.

Lemma recorded_fields P output_dir create_webm video_path r :
  recorded E P output_dir create_webm video_path r ->
  result_input_video r = video_path
  /\ result_video_name r = stem video_path
  /\ (status r = "success" \/ status r = "failed").
Proof.
  intros (w & w' & H). rewrite process_single_video_unfold in H. cbv zeta in H.
  destruct (process_video E _ _ _ _ _) as [w2 [e|v]] eqn:Hpv.
  - injection H as _ <-. split_and!; [done..|by right].
  - injection H as _ <-. split_and!; [|done|by left].
    simpl. by eapply process_video_input_video.
Qed.

Lemma recorded_input_videos P output_dir create_webm video_files new :
  Forall2 (recorded E P output_dir create_webm) video_files new ->
  List.map result_input_video new = video_files.
Proof.
  induction 1 as [|f r fs' rs Hr _ IH]; [done|].
  simpl. rewrite IH. f_equal. by apply recorded_fields in Hr as [-> _].
Qed.

Lemma process_batch_spec P input_dir output_dir create_webm extensions w :
  find_video_files E input_dir extensions <> [] ->
  exists w' new t,
    process_batch E P input_dir output_dir create_webm extensions w
    = (w', inr (set_results P (self_results P ++ new),
                {| total := length (find_video_files E input_dir extensions);
                   success := success_count (self_results P ++ new);
                   failed := Z.of_nat (length (self_results P ++ new))
                             - Z.of_nat (success_count (self_results P ++ new));
                   total_time := Some t;
                   results := self_results P ++ new |}))
    /\ Forall2 (recorded E P output_dir create_webm)
         (find_video_files E input_dir extensions) new.
Proof.
  intros Hne. unfold process_batch.
  destruct (find_video_files E input_dir extensions) as [|f files] eqn:Hfiles;
    [done|].
  unfold bind at 1. unfold now at 1.
  unfold bind at 1.
  destruct (batch_loop_spec output_dir create_webm (f :: files) P
              (World (fs w) (S (ticks w)))) as (w1 & new & Hrun & Hrec).
  rewrite Hrun. unfold bind at 1. unfold now at 1. unfold bind, save_report, ret.
  cbn [self_results set_results fs ticks].
  destruct (json_dump E _) as [text|]; eexists _, new, _; by split.
Qed.

Lemma success_count_occ rs :
  success_count rs = count_occ string_dec (List.map status rs) "success".
Proof.
  unfold success_count. induction rs as [|r rs IH]; [done|].
  destruct r; cbn [List.map status List.filter String.eqb Ascii.eqb Bool.eqb].
  - rewrite count_occ_cons_eq by done. simpl. by rewrite <- IH.
  - rewrite count_occ_cons_neq by done. exact IH.
Qed.

Lemma status_count_occ rs :
  count_occ string_dec (List.map status rs) "success"
  + count_occ string_dec (List.map status rs) "failed" = length rs.
Proof.
  induction rs as [|r rs IH]; [done|].
  destruct r; cbn [List.map status length].
  - rewrite count_occ_cons_eq, count_occ_cons_neq by done. lia.
  - rewrite count_occ_cons_neq, count_occ_cons_eq by done. lia.
Qed.

(** C6. A file whose processing raises does not stop the batch:
    [process_single_video] returns normally for every file, with a
    [failed] record carrying the error's message, the name, the time and
    the paths when [process_video] raised, and the [success] record
    otherwise; [process_batch] returns normally with one such record per
    discovered file, appended in discovery order. In its statistics
    [success] is the number of records whose status is [success] and
    [failed] the number of records whose status is [failed]; every
    discovered file is counted in exactly one of the two, and the counts
    add up to the number of records. *)
Theorem batch_isolation (P : BatchVideoProcessor) (input_dir output_dir : string)
    (create_webm : bool) (extensions : option (list string)) (w : world) :
  (forall video_path w1,
     exists w2 r,
       process_single_video E P video_path output_dir create_webm w1 = (w2, inr r)
       /\ result_video_name r = stem video_path
       /\ result_input_video r = video_path
       /\ (forall w3 e,
             process_video E video_path (join output_dir (stem video_path))
               (max_frames P) create_webm (after_tick w1) = (w3, inl e) ->
             status r = "failed"
             /\ r = BFailed (exn_msg e)
                      (time_time E (ticks w3) - time_time E (ticks w1))%float
                      (stem video_path) video_path
                      (join output_dir (stem video_path)))
       /\ (forall w3 v,
             process_video E video_path (join output_dir (stem video_path))
               (max_frames P) create_webm (after_tick w1) = (w3, inr v) ->
             status r = "success"
             /\ r = BSuccess v
                      (time_time E (ticks w3) - time_time E (ticks w1))%float
                      (stem video_path)))
  /\ exists w' P' stats new,
       process_batch E P input_dir output_dir create_webm extensions w
       = (w', inr (P', stats))
       /\ Forall2 (recorded E P output_dir create_webm)
            (find_video_files E input_dir extensions) new
       /\ total stats = length (find_video_files E input_dir extensions)
       /\ count_occ string_dec (List.map status new) "success"
          + count_occ string_dec (List.map status new) "failed"
          = length (find_video_files E input_dir extensions)
       /\ (find_video_files E input_dir extensions <> [] ->
            self_results P' = self_results P ++ new
            /\ results stats = self_results P ++ new
            /\ success stats
               = count_occ string_dec (List.map status (results stats)) "success"
            /\ failed stats
               = Z.of_nat
                   (count_occ string_dec (List.map status (results stats)) "failed")
            /\ (0 <= failed stats)%Z
            /\ (Z.of_nat (success stats) + failed stats
                = Z.of_nat (length (self_results P)) + Z.of_nat (total stats))%Z).
Proof.
  split.
  - intros video_path w1. rewrite process_single_video_unfold. cbv zeta.
    destruct (process_video E _ _ _ _ _) as [w2 [e|v]] eqn:Hpv;
      eexists _, _; (split; [reflexivity|]).
    + split_and!; try done.
      intros w3 e' [= <- <-]. by split.
    + split_and!; try done.
      * simpl. by eapply process_video_input_video.
      * intros w3 v' [= <- <-]. by split.
  - destruct (find_video_files E input_dir extensions) as [|f files] eqn:Hfiles.
    + exists w, P, empty_stats, []. unfold process_batch. rewrite Hfiles.
      split_and!; [done|constructor|done|done|done].
    + destruct (process_batch_spec P input_dir output_dir create_webm
                  extensions w) as (w' & new & t & Hrun & Hrec).
      { by rewrite Hfiles. }
      rewrite Hfiles in Hrun, Hrec.
      eexists w', _, _, new. split; [exact Hrun|].
      split; [exact Hrec|]. split; [done|].
      apply Forall2_length in Hrec.
      split; [by rewrite status_count_occ|].
      intros _. cbn [self_results set_results results failed success total].
      pose proof (success_count_le (self_results P ++ new)) as Hle.
      pose proof (status_count_occ (self_results P ++ new)) as Hsum.
      rewrite success_count_occ in Hle |- *.
      rewrite length_app in *.
      split_and!; [done|done|done|lia|lia|]. simpl in Hrec. simpl. lia.
Qed.

(** C10. On a processor whose results list is empty, a call of
    [process_batch] that discovers at least one file returns statistics
    with success + failed = total and with exactly one result per
    discovered file, in discovery order. *)
Theorem fresh_batch_invariant (P : BatchVideoProcessor)
    (input_dir output_dir : string) (create_webm : bool)
    (extensions : option (list string)) (w : world) :
  self_results P = [] ->
  find_video_files E input_dir extensions <> [] ->
  exists w' P' stats,
    process_batch E P input_dir output_dir create_webm extensions w
    = (w', inr (P', stats))
    /\ (Z.of_nat (success stats) + failed stats = Z.of_nat (total stats))%Z
    /\ length (results stats) = total stats
    /\ List.map result_input_video (results stats)
       = find_video_files E input_dir extensions
    /\ Forall2 (recorded E P output_dir create_webm)
         (find_video_files E input_dir extensions) (results stats)
    /\ self_results P' = results stats.
Proof.
  intros Hfresh Hne.
  destruct (process_batch_spec P input_dir output_dir create_webm extensions w Hne)
    as (w' & new & t & Hrun & Hrec).
  rewrite Hfresh in Hrun. cbn [app] in Hrun.
  eexists w', _, _. split; [exact Hrun|].
  cbn [self_results set_results results failed success total].
  pose proof (success_count_le new) as Hle.
  pose proof (Forall2_length _ _ _ Hrec) as Hlen.
  split_and!; [lia|done| |done|done].
  by eapply recorded_input_videos.
Qed.

(** On a processor that has results already, the counts cover the old
    results too and exceed the number of files discovered. *)
Lemma reused_batch_counts (P : BatchVideoProcessor)
    (input_dir output_dir : string) (create_webm : bool)
    (extensions : option (list string)) (w : world) :
  find_video_files E input_dir extensions <> [] ->
  exists w' P' stats,
    process_batch E P input_dir output_dir create_webm extensions w
    = (w', inr (P', stats))
    /\ (Z.of_nat (success stats) + failed stats
        = Z.of_nat (length (self_results P)) + Z.of_nat (total stats))%Z.
Proof.
  intros Hne.
  destruct (process_batch_spec P input_dir output_dir create_webm extensions w Hne)
    as (w' & new & t & Hrun & Hrec).
  eexists w', _, _. split; [exact Hrun|].
  cbn [results failed success total].
  apply Forall2_length in Hrec. rewrite length_app. lia.
Qed.
End WithExternals.
End BatchFacts.

Module BatchExamples.
Import World Paths Remover Batch BatchFacts Examples.

Lemma fresh_batch_invariant_witness :
  exists w' P' stats,
    process_batch studio (new_processor "u2net" None) "videos" "out" true None w0
    = (w', inr (P', stats))
    /\ total stats = 3 /\ success stats = 2 /\ failed stats = 1%Z
    /\ List.map result_input_video (results stats)
       = ["videos/a.mp4"; "videos/b.mp4"; "videos/c.mp4"]
    /\ List.map status (results stats) = ["success"; "failed"; "success"].
Proof.
  destruct (fresh_batch_invariant studio (new_processor "u2net" None)
              "videos" "out" true None w0) as (w' & P' & stats & Hrun & _).
  - reflexivity.
  - vm_compute. discriminate.
  - exists w', P', stats. split; [exact Hrun|].
    assert (Hs : snd (process_batch studio (new_processor "u2net" None)
                        "videos" "out" true None w0) = inr (P', stats))
      by (by rewrite Hrun).
    vm_compute in Hs. injection Hs as <- <-. by split_and!.
Defined.

Lemma isolated_run :
  exists P' stats,
    snd (process_batch studio (new_processor "u2net" (Some 2%Z)) "videos" "outputs"
           false None w0) = inr (P', stats)
    /\ total stats = 3 /\ success stats = 2 /\ failed stats = 1%Z
    /\ List.map result_input_video (results stats)
       = ["videos/a.mp4"; "videos/b.mp4"; "videos/c.mp4"]
    /\ List.map status (results stats) = ["success"; "failed"; "success"]
    /\ forall w',
         fst (process_batch studio (new_processor "u2net" (Some 2%Z)) "videos"
                "outputs" false None w0) = w' ->
         fs w' !! "outputs/a/output_transparent.mp4" = Some "mp4:2"
         /\ fs w' !! "outputs/b/output_transparent.mp4" = None
         /\ fs w' !! "outputs/c/output_transparent.mp4" = Some "mp4:2"
         /\ fs w' !! processed_path "outputs/c" 1 = Some "rgba:png2".
Proof.
  eexists _, _. split; [vm_compute; reflexivity|].
  split_and!; try reflexivity.
  intros w' <-. split_and!; vm_compute; reflexivity.
Qed.

Lemma batch_isolation_witness :
  capture studio "videos/b.mp4" = None
  /\ exists w' P' stats,
       process_batch studio (new_processor "u2net" (Some 2%Z)) "videos" "outputs"
         false None w0
       = (w', inr (P', stats))
       /\ total stats = 3 /\ success stats = 2 /\ failed stats = 1%Z
       /\ List.map result_input_video (results stats)
          = ["videos/a.mp4"; "videos/b.mp4"; "videos/c.mp4"]
       /\ List.map status (results stats) = ["success"; "failed"; "success"]
       /\ fs w' !! "outputs/a/output_transparent.mp4" = Some "mp4:2"
       /\ fs w' !! "outputs/b/output_transparent.mp4" = None
       /\ fs w' !! "outputs/c/output_transparent.mp4" = Some "mp4:2"
       /\ fs w' !! processed_path "outputs/c" 1 = Some "rgba:png2".
Proof.
  split; [reflexivity|].
  destruct (batch_isolation studio (new_processor "u2net" (Some 2%Z))
              "videos" "outputs" false None w0)
    as (_ & w' & P' & stats & new & Hrun & _).
  exists w', P', stats. split; [exact Hrun|].
  destruct isolated_run as (P1 & stats1 & Hs & Ht & Hsu & Hf & Hin & Hst & Hfiles).
  rewrite Hrun in Hs, Hfiles. injection Hs as <- <-.
  destruct (Hfiles w' eq_refl) as (Ha & Hb & Hc & Hp).
  by split_and!.
Defined.
End BatchExamples.

Module GuiFacts.
Import World Paths Remover Gui Examples.

Section WithExternals.
Variable E : Externals.
Variable processed_dir : string.

Lemma worker_frame_view g1 g2 :
  worker_view g1 = worker_view g2 ->
  worker_view (worker_frame E processed_dir g1)
  = worker_view (worker_frame E processed_dir g2).
Proof.
  destruct g1 as [p1 i1 pend1 done1 r1 s1], g2 as [p2 i2 pend2 done2 r2 s2].
  unfold worker_view. cbn. intros [= -> -> -> -> ->].
  unfold worker_frame. cbn.
  destruct r2; [done|]. destruct pend2 as [|frame rest]; [done|].
  by destruct (remove_background_from_frame E frame _ s2) as [w' [e|[]]].
Qed.

(** Pressing stop changes nothing the processing thread reads or
    writes: the thread's progress under any schedule is its progress
    under the same schedule with the presses left out. *)
Lemma run_ignores_stop schedule :
  forall g g',
    worker_view g = worker_view g' ->
    worker_view (run E processed_dir schedule g)
    = worker_view (run E processed_dir (List.filter is_worker_frame schedule) g').
Proof.
  induction schedule as [|ev schedule IH]; intros g g' Hv; [done|].
  destruct ev; cbn [List.filter is_worker_frame run fold_left step].
  - apply IH. by rewrite <- Hv.
  - apply IH. by apply worker_frame_view.
Qed.

Lemma run_after_raise n g e :
  raised g = Some e ->
  run E processed_dir (repeat WorkerFrame n) g = g.
Proof.
  intros Hr. induction n as [|n IH]; [done|].
  cbn [repeat run fold_left step]. unfold worker_frame. rewrite Hr. exact IH.
Qed.

Lemma worker_frame_step p i frame rest acc w :
  worker_frame E processed_dir
    {| processing := p; next_index := i; pending := frame :: rest;
       processed_frames := acc; raised := None; state := w |}
  = match remove_background_from_frame E frame
            (join processed_dir (processed_filename i)) w with
    | (w', inl e) =>
        {| processing := p; next_index := i; pending := frame :: rest;
           processed_frames := acc; raised := Some e; state := w' |}
    | (w', inr _) =>
        {| processing := p; next_index := S i; pending := rest;
           processed_frames := acc ++ [join processed_dir (processed_filename i)];
           raised := None; state := w' |}
    end.
Proof. reflexivity. Qed.

(** The thread's steps are the iterations of [process_frames]. *)
Lemma worker_runs_process_loop frames :
  forall p i acc w,
    match process_loop E processed_dir i frames acc w with
    | (w', inr processed) =>
        run E processed_dir (repeat WorkerFrame (length frames))
          {| processing := p; next_index := i; pending := frames;
             processed_frames := acc; raised := None; state := w |}
        = {| processing := p; next_index := i + length frames; pending := [];
             processed_frames := processed; raised := None; state := w' |}
    | (w', inl e) =>
        exists g,
          run E processed_dir (repeat WorkerFrame (length frames))
            {| processing := p; next_index := i; pending := frames;
               processed_frames := acc; raised := None; state := w |} = g
          /\ state g = w' /\ raised g = Some e
    end.
Proof.
  induction frames as [|frame rest IH]; intros p i acc w.
  - simpl. by rewrite Nat.add_0_r.
  - cbn [length repeat run fold_left step process_loop]. unfold bind.
    rewrite worker_frame_step.
    destruct (remove_background_from_frame E frame _ w) as [w1 [e|[]]].
    + eexists. split; [reflexivity|].
      change (fold_left (step E processed_dir) (repeat WorkerFrame (length rest)) ?g)
        with (run E processed_dir (repeat WorkerFrame (length rest)) g).
      by rewrite (run_after_raise _ _ e).
    + specialize (IH p (S i) (acc ++ [join processed_dir (processed_filename i)]) w1).
      destruct (process_loop E processed_dir (S i) rest _ w1) as [w' [e|processed]].
      * exact IH.
      * unfold run in IH. rewrite IH. f_equal. lia.
Qed.
End WithExternals.

(** C9, at a job of three frames whose user presses stop while the first
    frame is the only one done: the flag is cleared, and the thread goes
    on to segment the second and the third frame all the same. *)
Theorem stop_does_not_stop :
  exists g,
    g = run studio "out/processed_frames"
          [WorkerFrame; ClickStop; WorkerFrame; WorkerFrame]
          (started (List.map (frame_path "out") (seq 0 3)) extracted)
    /\ processing
         (run studio "out/processed_frames" [WorkerFrame; ClickStop]
            (started (List.map (frame_path "out") (seq 0 3)) extracted)) = false
    /\ processed_frames
         (run studio "out/processed_frames" [WorkerFrame; ClickStop]
            (started (List.map (frame_path "out") (seq 0 3)) extracted))
       = [processed_path "out" 0]
    /\ processing g = false
    /\ processed_frames g
       = [processed_path "out" 0; processed_path "out" 1; processed_path "out" 2]
    /\ is_Some (fs (state g) !! processed_path "out" 2).
Proof.
  eexists. split; [reflexivity|].
  split_and!; try (vm_compute; reflexivity). vm_compute. by eexists.
Qed.
End GuiFacts.

Module StageFacts.
Import Flatten World Paths Remover PathsFacts RemoverFacts PipelineFacts Examples.

Section WithExternals.
Variable E : Externals.

Lemma taken_le max_frames c n : taken max_frames c n <= n.
Proof.
  revert c. induction n as [|n IH]; intros c; simpl; [done|].
  destruct (cap_reached max_frames c); [lia|]. specialize (IH (S c)). lia.
Qed.

Lemma extract_loop_files max_frames dir stream :
  forall c acc w,
    exists w',
      extract_loop E max_frames dir stream c acc w
      = (w', inr (c + taken max_frames c (length stream),
                  acc ++ List.map (fun n => join dir (frame_filename n))
                           (seq c (taken max_frames c (length stream)))))
      /\ (forall n frame, n < taken max_frames c (length stream) ->
            stream !! n = Some frame ->
            fs w' !! join dir (frame_filename (c + n)) = Some (imwrite E frame))
      /\ (forall q, (forall n, n < taken max_frames c (length stream) ->
                       q <> join dir (frame_filename (c + n))) ->
            fs w' !! q = fs w !! q).
Proof.
  induction stream as [|frame stream IH]; intros c acc w; simpl.
  - exists w. rewrite Nat.add_0_r, app_nil_r. split_and!; [done| |done].
    intros n f Hn. lia.
  - destruct (cap_reached max_frames c) eqn:Hcap.
    + exists w. rewrite Nat.add_0_r, app_nil_r. split_and!; [done| |done].
      intros n f Hn. lia.
    + unfold bind, write_file at 1.
      destruct (IH (S c) (acc ++ [join dir (frame_filename c)])
                  (set_fs (insert (join dir (frame_filename c)) (imwrite E frame)) w))
        as (w' & -> & Hfiles & Hrest).
      exists w'. split_and!.
      * simpl. rewrite <- app_assoc. simpl. do 3 f_equal. lia.
      * intros [|n] f Hn Hf; simpl in Hf.
        -- injection Hf as <-. rewrite Nat.add_0_r, Hrest.
           ++ simpl. by rewrite lookup_insert_eq.
           ++ intros n Hn' Heq. apply frame_path_inj in Heq. lia.
        -- replace (c + S n) with (S c + n) by lia. apply Hfiles; [lia|done].
      * intros q Hq. rewrite Hrest.
        -- simpl. rewrite lookup_insert_ne; [done|].
           intros Heq. apply (Hq 0); [lia|]. by rewrite Nat.add_0_r.
        -- intros n Hn. replace (S c + n) with (c + S n) by lia. apply Hq. lia.
Qed.

(** X1. Extraction keeps a prefix of the frames the capture decodes, all of
    them when no cap is given; frame i is stored, encoded, under
    [frames/frame_{i:06d}.png], the returned list names these files in
    order, and no other file is touched. *)
Theorem extract_frames_persists (video_path output_dir : string)
    (max_frames : option Z) (w : world) (cap : Video) :
  capture E video_path = Some cap ->
  exists w' cnt,
    extract_frames E video_path output_dir max_frames w
    = (w', inr (cnt, v_fps cap, v_width cap, v_height cap,
                List.map (frame_path output_dir) (seq 0 cnt)))
    /\ cnt <= length (v_frames cap)
    /\ (max_frames = None -> cnt = length (v_frames cap))
    /\ (forall i frame, i < cnt -> v_frames cap !! i = Some frame ->
          fs w' !! frame_path output_dir i = Some (imwrite E frame))
    /\ (forall q, (forall i, i < cnt -> q <> frame_path output_dir i) ->
          fs w' !! q = fs w !! q).
Proof.
  intros Hcap. unfold extract_frames. rewrite Hcap. unfold bind.
  destruct (extract_loop_files max_frames (join output_dir "frames")
              (v_frames cap) 0 [] w) as (w' & -> & Hfiles & Hrest).
  exists w', (taken max_frames 0 (length (v_frames cap))).
  split_and!; [done|apply taken_le| |exact Hfiles|exact Hrest].
  intros ->. by apply taken_uncapped.
Qed.

(** X2. A negative cap keeps no frame at all, whatever the video holds, and
    writes nothing. *)
Theorem extract_frames_negative_cap (video_path output_dir : string)
    (M : Z) (w : world) (cap : Video) :
  capture E video_path = Some cap ->
  (M < 0)%Z ->
  extract_frames E video_path output_dir (Some M) w
  = (w, inr (0, v_fps cap, v_width cap, v_height cap, [])).
Proof.
  intros Hcap HM. unfold extract_frames. rewrite Hcap. unfold bind.
  destruct (v_frames cap) as [|frame stream]; [done|].
  cbn [extract_loop]. unfold cap_reached.
  destruct (Z.eqb_spec M 0); [lia|].
  by destruct (Z.leb_spec M (Z.of_nat 0)); [|lia].
Qed.

Lemma process_loop_cons dir i p rest acc w :
  process_loop E dir i (p :: rest) acc w
  = match segment E (fs w) p with
    | inl e => (w, inl e)
    | inr b =>
        process_loop E dir (S i) rest (acc ++ [join dir (processed_filename i)])
          (set_fs (insert (join dir (processed_filename i)) b) w)
    end.
Proof.
  cbn [process_loop]. unfold bind. rewrite remove_background_from_frame_spec.
  by destruct (segment E (fs w) p).
Qed.

Lemma process_loop_writes_outputs_only dir frames :
  forall i acc w,
    ticks (fst (process_loop E dir i frames acc w)) = ticks w
    /\ forall q, (forall n, n < length frames ->
                    q <> join dir (processed_filename (i + n))) ->
         fs (fst (process_loop E dir i frames acc w)) !! q = fs w !! q.
Proof.
  induction frames as [|p rest IH]; intros i acc w; [done|].
  rewrite process_loop_cons.
  destruct (segment E (fs w) p) as [e|b]; [done|].
  destruct (IH (S i) (acc ++ [join dir (processed_filename i)])
              (set_fs (insert (join dir (processed_filename i)) b) w)) as [Ht Hq].
  split; [done|]. intros q Hne. rewrite Hq.
  - simpl. rewrite lookup_insert_ne; [done|].
    intros Heq. apply (Hne 0); [simpl; lia|]. by rewrite Nat.add_0_r.
  - intros n Hn. replace (S i + n) with (i + S n) by lia. apply Hne. simpl. lia.
Qed.

(** X4. Whether it returns or raises, [process_frames] changes no file but
    the [processed_frame_{i:06d}.png] of its own directory with i below the
    number of frames: the inputs and every other file stay as they were. *)
Theorem process_frames_writes_outputs_only (frames_list : list string)
    (output_dir : string) (w : world) (q : string) :
  (forall i, i < length frames_list -> q <> processed_path output_dir i) ->
  fs (fst (process_frames E frames_list output_dir w)) !! q = fs w !! q.
Proof.
  intros Hq. unfold process_frames.
  by apply process_loop_writes_outputs_only.
Qed.

Lemma process_loop_length dir frames :
  forall i acc w w' processed,
    process_loop E dir i frames acc w = (w', inr processed) ->
    length processed = length acc + length frames.
Proof.
  induction frames as [|p rest IH]; intros i acc w w' processed H.
  - injection H as _ <-. simpl. lia.
  - rewrite process_loop_cons in H.
    destruct (segment E (fs w) p) as [e|b]; [done|].
    apply IH in H. rewrite H, length_app. simpl. lia.
Qed.

Lemma process_loop_ok_inv dir frames :
  no_alias dir frames ->
  forall i acc w w' processed,
    process_loop E dir i frames acc w = (w', inr processed) ->
    forall p, p ∈ frames -> exists b, segment E (fs w) p = inr b.
Proof.
  induction frames as [|p rest IH]; intros Hna i acc w w' processed H q Hq.
  - by apply elem_of_nil in Hq.
  - rewrite process_loop_cons in H.
    destruct (segment E (fs w) p) as [e|b] eqn:Hb; [done|].
    apply elem_of_cons in Hq as [->|Hq]; [by exists b|].
    assert (Hna' : no_alias dir rest).
    { intros x k Hx. apply Hna. by right. }
    destruct (IH Hna' _ _ _ _ _ H q Hq) as [b' Hb'].
    exists b'. simpl in Hb'. rewrite segment_insert_ne in Hb'; [done|].
    intros Heq. apply (Hna q i); [by right|done].
Qed.

(** X5. Running [process_frames] again on the same frames changes nothing:
    the second run returns the same list and leaves the world the first run
    left. *)
Theorem process_frames_idempotent (frames_list : list string)
    (output_dir : string) (w w1 : world) (processed : list string) :
  no_alias (join output_dir "processed_frames") frames_list ->
  process_frames E frames_list output_dir w = (w1, inr processed) ->
  process_frames E frames_list output_dir w1 = (w1, inr processed).
Proof.
  intros Hna Hrun. unfold process_frames in *.
  pose proof (process_loop_ok_inv _ _ Hna _ _ _ _ _ Hrun) as Hseg.
  destruct (process_loop_ok E _ frames_list Hna 0 [] w Hseg)
    as (w1' & Hrun1 & Ht1 & Hout1 & Hrest1).
  rewrite Hrun in Hrun1. injection Hrun1 as <- ->.
  assert (Hseg1 : forall p, p ∈ frames_list -> exists b, segment E (fs w1) p = inr b).
  { intros p Hp. destruct (Hseg p Hp) as [b Hb]. exists b.
    unfold segment in *. rewrite Hrest1; [done|].
    intros n _. by apply Hna. }
  destruct (process_loop_ok E _ frames_list Hna 0 [] w1 Hseg1)
    as (w2 & Hrun2 & Ht2 & Hout2 & Hrest2).
  rewrite Hrun2. f_equal.
  destruct w1 as [f1 t1], w2 as [f2 t2]. simpl in *. subst t2. f_equal.
  apply map_eq. intros q.
  destruct (decide (q ∈ List.map (fun n => join (join output_dir "processed_frames")
                                     (processed_filename n))
                         (seq 0 (length frames_list)))) as [Hin|Hout].
  - apply list_elem_of_In, in_map_iff in Hin as (n & <- & Hn%in_seq).
    destruct (lookup_lt_is_Some_2 frames_list n) as [p Hp]; [lia|].
    destruct (Hout1 n p Hp) as (b & Hb & Hf1).
    destruct (Hout2 n p Hp) as (b' & Hb' & Hf2).
    simpl in Hf1, Hf2. rewrite Hf1, Hf2. f_equal.
    unfold segment in Hb, Hb'. rewrite Hrest1 in Hb'.
    + rewrite Hb in Hb'. by injection Hb'.
    + intros k _. apply Hna. by eapply list_elem_of_lookup_2.
  - apply Hrest2. intros n Hn Heq. apply Hout.
    apply list_elem_of_In, in_map_iff. exists n. split; [done|]. apply in_seq. lia.
Qed.

End WithExternals.
End StageFacts.

Module AssemblyFacts.
Import Flatten World Paths Remover Assembly PathsFacts RemoverFacts PipelineFacts
  StageFacts Examples.

Section WithExternals.
Variable E : Externals.

Lemma set_fs_insert_twice (k : string) (a b : bytes) (w : world) :
  set_fs (insert k a) (set_fs (insert k b) w) = set_fs (insert k a) w.
Proof. unfold set_fs. simpl. by rewrite insert_insert_eq. Qed.

Lemma decoded_cons files p rest :
  decoded E files (p :: rest)
  = match files !! p ≫= imread E with
    | Some img => img :: decoded E files rest
    | None => decoded E files rest
    end.
Proof. reflexivity. Qed.

Lemma decoded_insert_ne files out data frames :
  out ∉ frames -> decoded E (<[out:=data]> files) frames = decoded E files frames.
Proof.
  intros Hout. induction frames as [|p rest IH]; [done|].
  apply not_elem_of_cons in Hout as [Hne Hout].
  rewrite !decoded_cons, lookup_insert_ne by done. by rewrite IH.
Qed.

Lemma decoded_app files l1 l2 :
  decoded E files (l1 ++ l2) = decoded E files l1 ++ decoded E files l2.
Proof. unfold decoded. apply omap_app. Qed.

Lemma assemble_loop_cons out fps wd ht p rest written w :
  assemble_loop E out fps wd ht (p :: rest) written w
  = match fs w !! p ≫= imread E with
    | None => assemble_loop E out fps wd ht rest written w
    | Some img =>
        match prepare_frame E img wd ht with
        | inl e => (w, inl e)
        | inr frame =>
            assemble_loop E out fps wd ht rest (written ++ [astype_u8 frame])
              (set_fs (insert out
                         (mux E fps wd ht (written ++ [astype_u8 frame]))) w)
        end
    end.
Proof.
  cbn [assemble_loop]. unfold bind, imread_path.
  destruct (fs w !! p ≫= imread E) as [img|]; [|done].
  by destruct (prepare_frame E img wd ht).
Qed.

Lemma prepare_frame_channels img wd ht :
  has_channels img ->
  exists frame,
    prepare_frame E img wd ht = inr frame
    /\ writer_frame E wd ht img = astype_u8 frame.
Proof.
  intros [ch Hch]. unfold writer_frame, prepare_frame.
  destruct img as [rows|c rows]; [discriminate Hch|].
  cbn [flatten]. destruct (Nat.eqb c 4); eexists; split; reflexivity.
Qed.




(** The loop over a stretch of frames whose images all have a third axis:
    what follows runs with these images appended to the writer. *)
Lemma assemble_loop_app out fps wd ht l1 l2 :
  out ∉ l1 ->
  forall written w,
    Forall has_channels (decoded E (fs w) l1) ->
    fs w !! out = Some (mux E fps wd ht written) ->
    assemble_loop E out fps wd ht (l1 ++ l2) written w
    = assemble_loop E out fps wd ht l2
        (written ++ List.map (writer_frame E wd ht) (decoded E (fs w) l1))
        (set_fs (insert out
                   (mux E fps wd ht
                      (written ++ List.map (writer_frame E wd ht)
                                    (decoded E (fs w) l1)))) w).
Proof.
  induction l1 as [|p rest IH]; intros Hout written w Hch Hw.
  - simpl. rewrite app_nil_r. f_equal. destruct w as [f t]. unfold set_fs. simpl.
    f_equal. simpl in Hw. by rewrite insert_id.
  - apply not_elem_of_cons in Hout as [Hne Hout].
    cbn [app]. rewrite assemble_loop_cons.
    rewrite decoded_cons in Hch |- *.
    destruct (fs w !! p ≫= imread E) as [img|] eqn:Himg.
    + apply Forall_cons in Hch as [Himg3 Hch].
      destruct (prepare_frame_channels img wd ht Himg3) as (frame & -> & Hframe).
      rewrite <- Hframe.
      rewrite IH; [| done | |].
      * cbn [set_fs fs ticks]. rewrite decoded_insert_ne by done.
        rewrite set_fs_insert_twice. cbn [List.map]. by rewrite <- !app_assoc.
      * cbn [set_fs fs]. by rewrite decoded_insert_ne.
      * cbn [set_fs fs]. by rewrite lookup_insert_eq.
    + by apply IH.
Qed.

Lemma assemble_loop_other out fps wd ht frames :
  forall written w q,
    q <> out ->
    fs (fst (assemble_loop E out fps wd ht frames written w)) !! q = fs w !! q.
Proof.
  induction frames as [|p rest IH]; intros written w q Hq; [done|].
  rewrite assemble_loop_cons.
  destruct (fs w !! p ≫= imread E) as [img|]; [|by apply IH].
  destruct (prepare_frame E img wd ht) as [e|frame]; [done|].
  rewrite IH by done. simpl. by rewrite lookup_insert_ne.
Qed.

Lemma create_transparent_video_other frames out fps wd ht w q :
  q <> out ->
  fs (fst (create_transparent_video E frames out fps wd ht w)) !! q = fs w !! q.
Proof.
  intros Hq. unfold create_transparent_video.
  destruct (writer_opens E out fps wd ht); [|done].
  unfold bind, write_file. rewrite assemble_loop_other by done.
  simpl. by rewrite lookup_insert_ne.
Qed.


(** X7. The first processed file that decodes to a two-dimensional array
    (a grayscale image) makes the assembling raise [IndexError]; the video
    file then holds the frames read before it. *)
Theorem create_transparent_video_grayscale_raises (before after : list string)
    (frame_path output_path : string) (fps : float) (width height : Z)
    (w : world) (rows : list (list Z)) :
  writer_opens E output_path fps width height = true ->
  output_path ∉ before ->
  Forall has_channels (decoded E (fs w) before) ->
  frame_path <> output_path ->
  fs w !! frame_path ≫= imread E = Some (Img2 rows) ->
  create_transparent_video E (before ++ frame_path :: after) output_path
    fps width height w
  = (set_fs (insert output_path
               (mux E fps width height
                  (List.map (writer_frame E width height)
                     (decoded E (fs w) before)))) w,
     inl (Exn "IndexError" "tuple index out of range")).
Proof.
  intros Hopen Hout Hch Hne Hgray.
  unfold create_transparent_video. rewrite Hopen. unfold bind, write_file.
  rewrite assemble_loop_app; [| done | |].
  - cbn [set_fs fs ticks app]. rewrite decoded_insert_ne by done.
    rewrite set_fs_insert_twice, assemble_loop_cons. cbn [set_fs fs].
    rewrite lookup_insert_ne by done. by rewrite Hgray.
  - cbn [set_fs fs]. by rewrite decoded_insert_ne.
  - cbn [set_fs fs]. by rewrite lookup_insert_eq.
Qed.

End WithExternals.
End AssemblyFacts.

Module JobFacts.
Import Flatten World Paths Remover Assembly PathsFacts RemoverFacts PipelineFacts
  StageFacts AssemblyFacts Examples.

Lemma mp4_path_eq output_dir :
  join output_dir "output_transparent.mp4"
  = dir_prefix output_dir +:+ "output_transparent.mp4".
Proof. by apply join_relative. Qed.

Lemma mp4_not_frame output_dir i :
  frame_path output_dir i <> join output_dir "output_transparent.mp4".
Proof.
  rewrite frame_path_eq, mp4_path_eq. intros H.
  apply String.app_inj in H. discriminate H.
Qed.

Lemma mp4_not_processed output_dir i :
  processed_path output_dir i <> join output_dir "output_transparent.mp4".
Proof.
  rewrite processed_path_eq, mp4_path_eq. intros H.
  apply String.app_inj in H. discriminate H.
Qed.

(** X12. Whatever the ordinals, also beyond six digits, two frames of a
    job never share a file: the names of raw frames are pairwise distinct,
    so are those of processed frames, no raw frame is a processed one, and
    none of them is the opaque video. *)
Theorem job_files_distinct (output_dir : string) (i j : nat) :
  (frame_path output_dir i = frame_path output_dir j <-> i = j)
  /\ (processed_path output_dir i = processed_path output_dir j <-> i = j)
  /\ frame_path output_dir i <> processed_path output_dir j
  /\ frame_path output_dir i <> join output_dir "output_transparent.mp4"
  /\ processed_path output_dir i <> join output_dir "output_transparent.mp4".
Proof.
  split_and!.
  - split; [apply frame_path_inj|by intros ->].
  - split; [apply processed_path_inj|by intros ->].
  - apply frame_path_not_processed.
  - apply mp4_not_frame.
  - apply mp4_not_processed.
Qed.

Section WithExternals.
Variable E : Externals.

Lemma webm_step_spec create_webm processed output_dir fps w :
  exists w',
    webm_step E create_webm processed output_dir fps w
    = (w', inr (if create_webm && negb (bool_decide (processed = []))
                then Some (join output_dir "output_transparent.webm") else None))
    /\ (create_webm = false -> w' = w).
Proof.
  destruct create_webm; [|by exists w].
  destruct processed as [|first rest].
  - by exists w.
  - eexists. split; [reflexivity|done].
Qed.

(** X8. A result of [process_video] names a WebM file exactly when one was
    asked for and at least one frame was processed, and then it is
    [output_transparent.webm] in the output directory. *)
Theorem webm_reported_iff (input_video output_dir : string)
    (max_frames : option Z) (create_webm : bool) (w w' : world) (r : VideoResult) :
  process_video E input_video output_dir max_frames create_webm w = (w', inr r) ->
  (is_Some (output_webm r) <-> create_webm = true /\ 0 < frame_count r)
  /\ (forall p, output_webm r = Some p ->
        p = join output_dir "output_transparent.webm").
Proof.
  rewrite process_video_unfold.
  destruct (extract_frames E _ _ _ w) as [w1 [e|[[[[cnt fps] wd] ht] fl]]] eqn:Hex;
    [discriminate|].
  apply extract_frames_inv in Hex as (Hlen & _).
  destruct (process_frames E fl output_dir w1) as [w2 [e|processed]] eqn:Hpf;
    [discriminate|].
  apply process_loop_length in Hpf. simpl in Hpf.
  cbv zeta.
  destruct (create_transparent_video E processed _ fps wd ht w2) as [w3 [e|[]]];
    [discriminate|].
  destruct (webm_step_spec create_webm processed output_dir fps w3)
    as (w4 & -> & _).
  intros [= _ <-]. cbn [output_webm frame_count].
  destruct create_webm; cbn [andb].
  - destruct processed as [|first rest]; simpl in *.
    + split; [|done]. split; [by intros [? ?]|]. intros [_ H]. lia.
    + split; [|by intros p [= <-]]. split; [|by eexists].
      intros _. split; [done|lia].
  - split; [|done]. split; [by intros [? ?]|by intros [? _]].
Qed.

(** X9. When [process_video] returns (no WebM asked for), the files it
    leaves follow the frames of the video one for one: for every ordinal i
    below the reported frame count, [frames/frame_{i:06d}.png] holds the
    encoded i-th decoded frame and
    [processed_frames/processed_frame_{i:06d}.png] holds the model's output
    for exactly that file. *)
Theorem process_video_end_to_end (input_video output_dir : string)
    (max_frames : option Z) (w w' : world) (r : VideoResult) (cap : Video) :
  capture E input_video = Some cap ->
  process_video E input_video output_dir max_frames false w = (w', inr r) ->
  frame_count r <= length (v_frames cap)
  /\ forall i, i < frame_count r ->
       exists frame b,
         v_frames cap !! i = Some frame
         /\ rembg_remove E (imwrite E frame) = inr b
         /\ fs w' !! frame_path output_dir i = Some (imwrite E frame)
         /\ fs w' !! processed_path output_dir i = Some b.
Proof.
  intros Hcap. rewrite process_video_unfold.
  unfold extract_frames. rewrite Hcap. unfold bind at 1.
  destruct (extract_loop_files E max_frames (join output_dir "frames")
              (v_frames cap) 0 [] w) as (w1 & -> & Hfiles & _).
  cbn [fst snd ret app].
  set (cnt := taken max_frames 0 (length (v_frames cap))) in *.
  pose proof (taken_le max_frames 0 (length (v_frames cap))) as Hcnt.
  fold cnt in Hcnt.
  set (fl := List.map (fun n => join (join output_dir "frames") (frame_filename n))
               (seq 0 cnt)).
  assert (Hna : no_alias (join output_dir "processed_frames") fl).
  { apply frame_paths_no_alias. }
  destruct (process_frames E fl output_dir w1) as [w2 [e|processed]] eqn:Hpf;
    [discriminate|].
  unfold process_frames in Hpf.
  pose proof (process_loop_ok_inv E _ _ Hna _ _ _ _ _ Hpf) as Hseg.
  destruct (process_loop_ok E _ fl Hna 0 [] w1 Hseg)
    as (w2' & Hrun & _ & Hout & Hrest).
  rewrite Hpf in Hrun. injection Hrun as <- _.
  cbv zeta.
  destruct (create_transparent_video E processed _ (v_fps cap) (v_width cap)
              (v_height cap) w2) as [w3 [e|[]]] eqn:Hctv; [discriminate|].
  cbn [webm_step ret]. intros [= <- <-]. cbn [frame_count].
  split; [done|]. intros i Hi.
  destruct (lookup_lt_is_Some_2 (v_frames cap) i) as [frame Hframe]; [lia|].
  assert (Hfl : fl !! i = Some (frame_path output_dir i)).
  { unfold fl.
    change (List.map ?f ?l) with (f <$> l).
    by rewrite list_lookup_fmap, lookup_seq_lt. }
  destruct (Hout i _ Hfl) as (b & Hb & Hproc).
  assert (Hraw : fs w1 !! frame_path output_dir i = Some (imwrite E frame)).
  { by apply (Hfiles i frame Hi Hframe). }
  unfold segment in Hb. rewrite Hraw in Hb.
  exists frame, b. split_and!; [done|done| |].
  - replace w3 with (fst (create_transparent_video E processed
                            (join output_dir "output_transparent.mp4")
                            (v_fps cap) (v_width cap) (v_height cap) w2))
      by (by rewrite Hctv).
    rewrite create_transparent_video_other by apply mp4_not_frame.
    rewrite Hrest; [done|].
    intros n _. apply frame_path_not_processed.
  - replace w3 with (fst (create_transparent_video E processed
                            (join output_dir "output_transparent.mp4")
                            (v_fps cap) (v_width cap) (v_height cap) w2))
      by (by rewrite Hctv).
    rewrite create_transparent_video_other by apply mp4_not_processed.
    exact Hproc.
Qed.

End WithExternals.
End JobFacts.

Module NameFacts.
Import Flatten World Paths Remover Names PathsFacts RemoverFacts PipelineFacts Examples.

Lemma list_ascii_app s t :
  list_ascii_of_string (s +:+ t) = list_ascii_of_string s ++ list_ascii_of_string t.
Proof.
  induction s as [|c s IH]; [done|].
  change (String c s +:+ t) with (String c (s +:+ t)). simpl. by rewrite IH.
Qed.

Lemma drop_while_plain (l rest : list ascii) :
  Forall plain l ->
  drop_while (fun c => negb (is_sep c)) (l ++ sep :: rest) = sep :: rest.
Proof.
  induction 1 as [|c l Hc _ IH]; [done|].
  simpl. unfold plain in Hc. by rewrite Hc.
Qed.

(** [dirname] gives back the directory a plain name was joined to, when
    that directory does not end with the separator. *)
Lemma dirname_join_plain (a name : string) (c : ascii) (r : list ascii) :
  rev (list_ascii_of_string a) = c :: r ->
  plain c ->
  Forall plain (list_ascii_of_string name) ->
  dirname (a +:+ String sep name) = a.
Proof.
  intros Ha Hc Hname. unfold dirname.
  rewrite list_ascii_app. cbn [list_ascii_of_string].
  rewrite rev_app_distr. cbn [rev]. rewrite <- app_assoc. cbn [app].
  rewrite drop_while_plain by (by apply Forall_rev).
  rewrite Ha. cbn [forallb drop_while]. unfold plain in Hc.
  assert (Hs : is_sep sep = true) by done. rewrite Hs, Hc. cbn [andb].
  rewrite <- Ha, rev_involutive. apply string_of_list_ascii_of_string.
Qed.

Lemma string_of_uint_plain d :
  Forall plain (list_ascii_of_string (NilEmpty.string_of_uint d)).
Proof. induction d; simpl; constructor; done. Qed.

Lemma zeros_plain k : Forall plain (list_ascii_of_string (zeros k)).
Proof. induction k; simpl; constructor; done. Qed.

Lemma fmt06_plain n : Forall plain (list_ascii_of_string (fmt06 n)).
Proof.
  unfold fmt06. rewrite list_ascii_app. apply Forall_app. split.
  - apply zeros_plain.
  - apply string_of_uint_plain.
Qed.

Lemma processed_filename_plain i :
  Forall plain (list_ascii_of_string (processed_filename i)).
Proof.
  unfold processed_filename. rewrite !list_ascii_app.
  apply Forall_app. split; [by repeat constructor|].
  apply Forall_app. split; [apply fmt06_plain|by repeat constructor].
Qed.

Lemma dirname_processed_path output_dir i :
  dirname (processed_path output_dir i) = join output_dir "processed_frames".
Proof.
  unfold processed_path.
  rewrite (join_relative output_dir "processed_frames") by done.
  rewrite (join_relative _ (processed_filename i)) by done.
  rewrite dir_prefix_subdir by done.
  rewrite string_app_assoc.
  change ("/" +:+ processed_filename i) with (String sep (processed_filename i)).
  eapply dirname_join_plain;
    [rewrite list_ascii_app, rev_app_distr; reflexivity
    |done|apply processed_filename_plain].
Qed.

(** X10. The text of the transcoder's command names the files
    [process_frames] wrote: for the non-empty list that [process_frames]
    returns, the one shell command run is the ffmpeg line with, between
    single quotes and unescaped, the pattern [processed_frame_%06d.png] of
    the job's processed-frames directory and the output path; and putting
    the six-digit ordinal i in place of [%06d] in the pattern gives the
    path of processed frame i. *)
Theorem webm_command_pattern (E : Externals) (output_dir output_path : string)
    (fps : float) (n : nat) (w : world) :
  create_webm_with_transparency E
    (List.map (processed_path output_dir) (seq 0 (S n))) output_path fps w
  = (set_fs (fun f => fst (os_system E
               (ffmpeg_cmd E (join (join output_dir "processed_frames")
                                "processed_frame_%06d.png") output_path fps) f)) w,
     inr tt)
  /\ ffmpeg_cmd E (join (join output_dir "processed_frames")
                     "processed_frame_%06d.png") output_path fps
     = "ffmpeg -y -framerate " +:+ str_float E fps +:+ " -i '"
       +:+ join (join output_dir "processed_frames") "processed_frame_%06d.png"
       +:+ "' -c:v libvpx-vp9 -pix_fmt yuva420p '" +:+ output_path +:+ "'"
  /\ exists pre post,
       join (join output_dir "processed_frames") "processed_frame_%06d.png"
       = pre +:+ "%06d" +:+ post
       /\ forall i, processed_path output_dir i = pre +:+ fmt06 i +:+ post.
Proof.
  split_and!.
  - cbn [seq List.map create_webm_with_transparency].
    by rewrite dirname_processed_path.
  - reflexivity.
  - exists (dir_prefix (join output_dir "processed_frames") +:+ "processed_frame_"),
      ".png".
    split.
    + rewrite join_relative by done. by rewrite string_app_assoc.
    + intros i. unfold processed_path. rewrite join_relative by done.
      unfold processed_filename. by rewrite string_app_assoc.
Qed.

End NameFacts.

Module ReportFacts.
Import World Paths Remover Batch PipelineFacts BatchFacts DiscoveryFacts Examples.

Section WithExternals.
Variable E : Externals.

(** X3. A file the capture cannot open costs the batch nothing but its
    record: [process_single_video] returns a failed record whose error is
    the open error naming the path, and no file is written. *)
Theorem unopenable_video_recorded (P : BatchVideoProcessor)
    (video_path output_base_dir : string) (create_webm : bool) (w : world) :
  capture E video_path = None ->
  process_single_video E P video_path output_base_dir create_webm w
  = (World (fs w) (S (S (ticks w))),
     inr (BFailed ("无法打开视频文件: " +:+ video_path)
            (time_time E (S (ticks w)) - time_time E (ticks w))%float
            (stem video_path) video_path
            (join output_base_dir (stem video_path)))).
Proof.
  intros Hcap. rewrite process_single_video_unfold. cbv zeta.
  rewrite process_video_unfold. unfold extract_frames. by rewrite Hcap.
Qed.

Lemma sorted_set_nil : sorted_set [] = [].
Proof. unfold sorted_set. simpl. by rewrite elements_empty. Qed.

Lemma glob_all_nil input_dir exts :
  (forall ext, ext ∈ exts -> glob E input_dir ("**/*" +:+ ext) = []) ->
  glob_all E input_dir exts = [].
Proof.
  intros H. unfold glob_all. induction exts as [|ext exts IH]; [done|].
  simpl. rewrite H by (by left). simpl. apply IH. intros e He. apply H. by right.
Qed.

(** X14. When the input directory does not exist, or no pattern matches in
    it, [process_batch] returns at once: all counts are zero, the results
    list of the statistics is empty whatever the processor already holds,
    there is no total time, and neither the processor, the files (no report
    is written) nor the clock have changed. *)
Theorem process_batch_nothing_found (P : BatchVideoProcessor)
    (input_dir output_dir : string) (create_webm : bool)
    (extensions : option (list string)) (w : world) :
  path_exists E input_dir = false
  \/ (forall ext, ext ∈ default default_extensions extensions ->
        glob E input_dir ("**/*" +:+ ext) = []) ->
  process_batch E P input_dir output_dir create_webm extensions w
  = (w, inr (P, {| total := 0; success := 0; failed := 0;
                   total_time := None; results := [] |})).
Proof.
  intros H. unfold process_batch.
  assert (Hnone : find_video_files E input_dir extensions = []).
  { unfold find_video_files. destruct H as [->|H]; [done|].
    destruct (path_exists E input_dir); [|done].
    by rewrite glob_all_nil, sorted_set_nil. }
  by rewrite Hnone.
Qed.

Lemma success_count_all rs :
  success_count rs = length rs <-> Forall (fun r => status r = "success") rs.
Proof.
  unfold success_count. induction rs as [|r rs IH]; [by split; [constructor|]|].
  simpl. pose proof (List.filter_length_le (fun r => String.eqb (status r) "success") rs).
  destruct r as [v t n|err t n i o]; simpl.
  - rewrite Forall_cons. split.
    + intros Hl. split; [done|]. apply IH. lia.
    + intros [_ Hall]. apply IH in Hall. lia.
  - split; [lia|]. by intros [? _]%Forall_cons.
Qed.

(** X16. For a processor without earlier results, the exit code that
    [main] computes from the statistics of [process_batch] is 0 exactly
    when every discovered file was processed successfully (in particular
    when none was discovered), and 1 as soon as one failed. *)
Theorem exit_code_zero_iff_all_succeeded (P P' : BatchVideoProcessor)
    (input_dir output_dir : string) (create_webm : bool)
    (extensions : option (list string)) (w w' : world) (stats : Stats) :
  self_results P = [] ->
  process_batch E P input_dir output_dir create_webm extensions w
  = (w', inr (P', stats)) ->
  (exit_code stats = 0%Z \/ exit_code stats = 1%Z)
  /\ (exit_code stats = 0%Z
      <-> Forall (fun r => status r = "success") (results stats)).
Proof.
  intros Hfresh Hrun.
  destruct (find_video_files E input_dir extensions) as [|f files] eqn:Hfiles.
  - unfold process_batch in Hrun. rewrite Hfiles in Hrun.
    injection Hrun as _ _ <-. split; [by left|]. by split; [constructor|].
  - destruct (process_batch_spec E P input_dir output_dir create_webm extensions w)
      as (w1 & new & t & Hspec & _); [by rewrite Hfiles|].
    rewrite Hrun in Hspec. injection Hspec as _ _ ->.
    unfold exit_code. cbn [failed results].
    rewrite Hfresh. cbn [app].
    pose proof (success_count_le new) as Hle.
    destruct (Z.eqb_spec (Z.of_nat (length new) - Z.of_nat (success_count new)) 0)
      as [Hz|Hnz].
    + split; [by left|]. split; [|done]. intros _. apply success_count_all. lia.
    + split; [by right|]. split; [done|]. intros Hall%success_count_all. lia.
Qed.

(** X13. The results list lives on the processor: a second batch on the
    same processor returns statistics whose results begin with those of the
    first batch, and whose success and failed counts add up to the files of
    both batches, not to its own total. *)
Theorem second_batch_counts_first (P P1 P2 : BatchVideoProcessor)
    (dir1 out1 dir2 out2 : string) (cw1 cw2 : bool)
    (exts1 exts2 : option (list string)) (w w1 w2 : world) (stats1 stats2 : Stats) :
  self_results P = [] ->
  find_video_files E dir1 exts1 <> [] ->
  find_video_files E dir2 exts2 <> [] ->
  process_batch E P dir1 out1 cw1 exts1 w = (w1, inr (P1, stats1)) ->
  process_batch E P1 dir2 out2 cw2 exts2 w1 = (w2, inr (P2, stats2)) ->
  (exists new, results stats2 = results stats1 ++ new
               /\ length new = total stats2)
  /\ (Z.of_nat (success stats2) + failed stats2
      = Z.of_nat (total stats1) + Z.of_nat (total stats2))%Z
  /\ total stats2 < length (results stats2).
Proof.
  intros Hfresh Hne1 Hne2 Hrun1 Hrun2.
  destruct (process_batch_spec E P dir1 out1 cw1 exts1 w Hne1)
    as (w1' & new1 & t1 & Hspec1 & Hrec1).
  rewrite Hrun1 in Hspec1. injection Hspec1 as _ -> ->.
  destruct (process_batch_spec E (set_results P (self_results P ++ new1))
              dir2 out2 cw2 exts2 w1 Hne2) as (w2' & new2 & t2 & Hspec2 & Hrec2).
  rewrite Hrun2 in Hspec2. injection Hspec2 as _ _ ->.
  cbn [results total success failed self_results set_results].
  apply Forall2_length in Hrec1, Hrec2.
  rewrite Hfresh. cbn [app].
  pose proof (success_count_le (new1 ++ new2)) as Hle.
  rewrite length_app in *.
  assert (0 < length new1).
  { destruct (find_video_files E dir1 exts1); [done|]. simpl in Hrec1. lia. }
  split_and!; [by exists new2|lia|lia].
Qed.

(** X15. After a batch that discovered files, the report describes the
    statistics returned: when serialising succeeds the file
    [batch_processing_report.json] of the output directory holds it, its
    file total is the number of discovered files, it has one entry per
    result, and its successful and failed counts add up to the number of
    entries. *)
Theorem report_matches_statistics (P P' : BatchVideoProcessor)
    (input_dir output_dir : string) (create_webm : bool)
    (extensions : option (list string)) (w w' : world) (stats : Stats) :
  find_video_files E input_dir extensions <> [] ->
  process_batch E P input_dir output_dir create_webm extensions w
  = (w', inr (P', stats)) ->
  exists stamp,
    (forall text, json_dump E (report_data P' stats stamp) = Some text ->
       fs w' !! join output_dir "batch_processing_report.json" = Some text)
    /\ total_files (report_data P' stats stamp)
       = length (find_video_files E input_dir extensions)
    /\ report_results (report_data P' stats stamp)
       = List.map result_info (self_results P')
    /\ (Z.of_nat (successful (report_data P' stats stamp))
        + report_failed (report_data P' stats stamp)
        = Z.of_nat (length (report_results (report_data P' stats stamp))))%Z.
Proof.
  intros Hne Hrun. unfold process_batch in Hrun.
  destruct (find_video_files E input_dir extensions) as [|f files] eqn:Hfiles;
    [done|].
  unfold bind at 1 in Hrun. unfold now at 1 in Hrun. unfold bind at 1 in Hrun.
  destruct (batch_loop_spec E output_dir create_webm (f :: files) P
              (World (fs w) (S (ticks w)))) as (w1 & new & Hloop & Hrec).
  rewrite Hloop in Hrun. unfold bind at 1 in Hrun. unfold now at 1 in Hrun.
  unfold bind, save_report, ret in Hrun.
  cbn [self_results set_results fs ticks] in Hrun.
  exists (strftime E (S (ticks w1))).
  destruct (json_dump E _) as [text|] eqn:Hdump.
  - injection Hrun as <- <- <-. split_and!.
    + intros text' Htext.
      assert (Heq : Some text = Some text') by (rewrite <- Hdump; exact Htext).
      injection Heq as <-.
      cbn [write_file fst set_fs fs]. by rewrite lookup_insert_eq.
    + done.
    + done.
    + cbn [report_data successful report_failed report_results success failed results
             self_results set_results].
      rewrite length_map. lia.
  - injection Hrun as <- <- <-. split_and!.
    + intros text' Htext.
      assert (Heq : None = Some text') by (rewrite <- Hdump; exact Htext).
      discriminate Heq.
    + done.
    + done.
    + cbn [report_data successful report_failed report_results success failed results
             self_results set_results].
      rewrite length_map. lia.
Qed.

End WithExternals.
End ReportFacts.

Module FormFacts.
Import Flatten World Paths Remover PathsFacts RemoverFacts PipelineFacts
  FlattenFacts StageFacts Examples.

Section WithExternals.
Variable E : Externals.
Variable py_int : string -> option Z.

(** X17. A job the form lets through has no cap or a positive one, and the
    cap is honoured exactly: with the field empty the result reports every
    frame of the video, with a number m in it the result reports the smaller
    of m and the number of frames. A cap of zero or less never reaches the
    pipeline. *)
Theorem validated_cap_is_honoured (f : GuiForm.form) (cap : Video)
    (w w' : world) (r : VideoResult) :
  GuiForm.validate_inputs E py_int f = true ->
  capture E (GuiForm.input_video_path f) = Some cap ->
  GuiForm.process_video_thread E py_int f w = (w', inr r) ->
  (GuiForm.max_frames f = "" -> frame_count r = length (v_frames cap))
  /\ (GuiForm.max_frames f <> "" ->
      exists m, py_int (GuiForm.max_frames f) = Some m
                /\ (0 < m)%Z
                /\ Z.of_nat (frame_count r)
                   = Z.min m (Z.of_nat (length (v_frames cap)))).
Proof.
  intros Hvalid Hcap Hrun.
  unfold GuiForm.validate_inputs in Hvalid.
  destruct (String.eqb (GuiForm.input_video_path f) ""); [done|].
  destruct (negb (path_exists E (GuiForm.input_video_path f))); [done|].
  destruct (String.eqb (GuiForm.output_dir_path f) ""); [done|].
  unfold GuiForm.process_video_thread, GuiForm.thread_max_frames in Hrun.
  assert (Hcount : forall mf,
             process_video E (GuiForm.input_video_path f) (GuiForm.output_dir_path f)
               mf (GuiForm.create_webm f) w = (w', inr r) ->
             frame_count r = taken mf 0 (length (v_frames cap))).
  { intros mf. rewrite process_video_unfold.
    destruct (extract_frames_spec E (GuiForm.input_video_path f)
                (GuiForm.output_dir_path f) mf w cap Hcap) as (w1 & -> & _).
    destruct (process_frames E _ _ w1) as [w2 [e|processed]]; [discriminate|].
    cbv zeta.
    destruct (create_transparent_video E processed _ _ _ _ w2) as [w3 [e|[]]];
      [discriminate|].
    destruct (webm_step E _ processed _ _ w3) as [w4 [e|ow]]; [discriminate|].
    by intros [= _ <-]. }
  destruct (String.eqb_spec (GuiForm.max_frames f) "") as [Hempty|Hfilled];
    cbn [negb] in Hvalid, Hrun.
  - split; [|done]. intros _. rewrite (Hcount None Hrun).
    by apply taken_uncapped.
  - split; [done|]. intros _.
    destruct (py_int (GuiForm.max_frames f)) as [m|]; [|done].
    destruct (Z.leb_spec m 0) as [|Hpos]; [done|].
    exists m. split_and!; [done|done|].
    rewrite (Hcount (Some m) Hrun), taken_capped by (simpl; lia). simpl. lia.
Qed.

End WithExternals.






(** X19. Over the white backdrop a channel only gets lighter, up to the one
    unit the truncation can take away: the stored value is at least the
    source value minus one and at most 255. *)
Theorem flatten_only_lightens (s a : Z) :
  is_u8 s -> is_u8 a ->
  (s - 1 <= flatten_channel s a <= 255)%Z.
Proof.
  intros Hs Ha.
  pose proof (flatten_channel_near_exact s a Hs Ha) as [Hlo Hhi].
  unfold is_u8 in Hs, Ha.
  assert (Hfloor : (s <= exact_floor s a <= 255)%Z).
  { unfold exact_floor. split.
    - apply Z.div_le_lower_bound; [lia|]. nia.
    - apply Z.div_le_upper_bound; [lia|]. nia. }
  lia.
Qed.

End FormFacts.

Module OrderFacts.
Import Paths Remover Names PathsFacts NameFacts.
Import DecimalNat.Unsigned.

Local Abbreviation num := Nat.of_uint (only parsing).
Local Abbreviation str := NilEmpty.string_of_uint (only parsing).

(** The value of a numeral from its first digit and the rest. *)
Lemma num_cons d :
  d <> Decimal.Nil -> num d = hd d * 10 ^ usize (tl d) + num (tl d).
Proof.
  intros Hd. destruct d; [done|..]; simpl hd; simpl tl; unfold Nat.of_uint;
    simpl Nat.of_uint_acc; rewrite ?Nat.tail_mul_spec, !of_uint_acc_spec;
    generalize (10 ^ usize d); intros P;
    generalize (of_lu (Decimal.rev d)); intros a; lia.
Qed.

Lemma num_bound d : num d < 10 ^ usize d.
Proof.
  induction d; [vm_compute; lia|..];
    (rewrite num_cons by done; simpl hd; simpl tl; simpl usize;
     rewrite Nat.pow_succ_r'; generalize dependent (10 ^ usize d); intros P;
     generalize dependent (Nat.of_uint d); intros a; lia).
Qed.

Lemma str_length d : String.length (str d) = usize d.
Proof. induction d; simpl; congruence. Qed.

Lemma nat_compare_add_l p n m : Nat.compare (p + n) (p + m) = Nat.compare n m.
Proof.
  destruct (Nat.compare_spec n m) as [->|Hlt|Hgt].
  - apply Nat.compare_refl.
  - apply Nat.compare_lt_iff. lia.
  - apply Nat.compare_gt_iff. lia.
Qed.

Lemma nat_compare_digit_lt a b P n m :
  a < b -> n < P -> Nat.compare (a * P + n) (b * P + m) = Lt.
Proof. intros Hab Hn. apply Nat.compare_lt_iff. nia. Qed.

Lemma nat_compare_digit_gt a b P n m :
  b < a -> m < P -> Nat.compare (a * P + n) (b * P + m) = Gt.
Proof. intros Hab Hm. apply Nat.compare_gt_iff. nia. Qed.

(** Numerals of the same number of digits compare as their values. *)
Lemma compare_same_size d1 :
  forall d2, usize d1 = usize d2 ->
    String.compare (str d1) (str d2) = Nat.compare (num d1) (num d2).
Proof.
  induction d1; intros d2 Hsz; destruct d2; try discriminate Hsz;
    [reflexivity|..]; injection Hsz as Hsz;
    match goal with
    | |- _ = Nat.compare (Nat.of_uint ?x) (Nat.of_uint ?y) =>
        rewrite (num_cons x), (num_cons y) by done
    end;
    simpl hd; simpl tl; rewrite <- Hsz;
    pose proof (num_bound d1) as HP1; pose proof (num_bound d2) as HP2;
    rewrite <- Hsz in HP2;
    cbn [NilEmpty.string_of_uint String.compare];
    match goal with
    | |- context [Ascii.compare ?a ?b] =>
        let c := eval vm_compute in (Ascii.compare a b) in
        change (Ascii.compare a b) with c
    end; cbv iota;
    first [ rewrite (IHd1 d2 Hsz); symmetry; apply nat_compare_add_l
          | symmetry; apply nat_compare_digit_lt; [lia|done]
          | symmetry; apply nat_compare_digit_gt; [lia|done] ].
Qed.

Lemma zeros_str k d : zeros k +:+ str d = str (Nat.iter k Decimal.D0 d).
Proof.
  induction k as [|k IH]; [done|].
  change (zeros (S k) +:+ str d) with (String "0"%char (zeros k +:+ str d)).
  by rewrite IH.
Qed.

Lemma usize_zeros k d : usize (Nat.iter k Decimal.D0 d) = k + usize d.
Proof. induction k as [|k IH]; [done|]. simpl. by rewrite IH. Qed.

Lemma num_zeros k d : num (Nat.iter k Decimal.D0 d) = num d.
Proof.
  induction k as [|k IH]; [done|].
  change (Nat.iter (S k) Decimal.D0 d) with (Decimal.D0 (Nat.iter k Decimal.D0 d)).
  rewrite num_cons by done. simpl hd. simpl tl.
  rewrite IH. lia.
Qed.

Lemma to_uint_normal n : Decimal.unorm (Nat.to_uint n) = Nat.to_uint n.
Proof. by rewrite <- to_of, of_to. Qed.

(** A numeral without leading zero is at least the power of ten of its
    length less one. *)
Lemma normal_lower_bound d :
  Decimal.unorm d = d -> num d <> 0 -> 10 ^ (usize d - 1) <= num d.
Proof.
  intros Hnorm Hnz. destruct d.
  - discriminate Hnorm.
  - exfalso. rewrite DecimalFacts.unorm_D0 in Hnorm.
    destruct d as [| | | | | | | | | |]; [by apply Hnz|..];
      (match type of Hnorm with
       | Decimal.unorm ?x = _ =>
           assert (Hx : x <> Decimal.Nil) by done;
           pose proof (DecimalFacts.nb_digits_unorm x Hx) as Hle
       end;
       rewrite Hnorm in Hle; simpl in Hle; lia).
  - rewrite num_cons by done. simpl. rewrite Nat.sub_0_r.
    generalize (10 ^ usize d). intros P. lia.
  - rewrite num_cons by done. simpl. rewrite Nat.sub_0_r.
    generalize (10 ^ usize d). intros P. lia.
  - rewrite num_cons by done. simpl. rewrite Nat.sub_0_r.
    generalize (10 ^ usize d). intros P. lia.
  - rewrite num_cons by done. simpl. rewrite Nat.sub_0_r.
    generalize (10 ^ usize d). intros P. lia.
  - rewrite num_cons by done. simpl. rewrite Nat.sub_0_r.
    generalize (10 ^ usize d). intros P. lia.
  - rewrite num_cons by done. simpl. rewrite Nat.sub_0_r.
    generalize (10 ^ usize d). intros P. lia.
  - rewrite num_cons by done. simpl. rewrite Nat.sub_0_r.
    generalize (10 ^ usize d). intros P. lia.
  - rewrite num_cons by done. simpl. rewrite Nat.sub_0_r.
    generalize (10 ^ usize d). intros P. lia.
  - rewrite num_cons by done. simpl. rewrite Nat.sub_0_r.
    generalize (10 ^ usize d). intros P. lia.
Qed.

Lemma usize_to_uint n k : 0 < k -> n < 10 ^ k -> usize (Nat.to_uint n) <= k.
Proof.
  intros Hk Hn. destruct (decide (n = 0)) as [->|Hnz]; [simpl; lia|].
  pose proof (normal_lower_bound (Nat.to_uint n) (to_uint_normal n)) as Hlow.
  rewrite of_to in Hlow. specialize (Hlow Hnz).
  assert (Hpow : 10 ^ (usize (Nat.to_uint n) - 1) < 10 ^ k) by lia.
  apply Nat.pow_lt_mono_r_iff in Hpow; lia.
Qed.

(** Below a million the formatted ordinal has exactly six digits. *)
Lemma fmt06_six n :
  n < 10 ^ 6 ->
  exists d, fmt06 n = str d /\ usize d = 6 /\ num d = n.
Proof.
  intros Hn. pose proof (usize_to_uint n 6 ltac:(lia) Hn) as Hsz.
  exists (Nat.iter (6 - usize (Nat.to_uint n)) Decimal.D0 (Nat.to_uint n)).
  split_and!.
  - unfold fmt06, str_nat. cbv zeta. by rewrite str_length, zeros_str.
  - rewrite usize_zeros. lia.
  - by rewrite num_zeros, of_to.
Qed.

Lemma ascii_compare_refl c : Ascii.compare c c = Eq.
Proof. unfold Ascii.compare. apply N.compare_refl. Qed.

Lemma compare_app_prefix p s t :
  String.compare (p +:+ s) (p +:+ t) = String.compare s t.
Proof.
  induction p as [|c p IH]; [done|].
  change (String.compare (String c (p +:+ s)) (String c (p +:+ t)) = String.compare s t).
  cbn [String.compare]. by rewrite ascii_compare_refl.
Qed.

Lemma compare_app_lt s :
  forall t u v,
    String.length s = String.length t ->
    String.compare s t = Lt -> String.compare (s +:+ u) (t +:+ v) = Lt.
Proof.
  induction s as [|c s IH]; intros [|c' t] u v Hlen Hlt; try discriminate.
  change (String.compare (String c (s +:+ u)) (String c' (t +:+ v)) = Lt).
  cbn [String.compare] in *. destruct (Ascii.compare c c'); [|done|done].
  apply IH; [|done]. simpl in Hlen. lia.
Qed.

Lemma fmt06_compare i j :
  i < j -> j < 10 ^ 6 ->
  String.length (fmt06 i) = String.length (fmt06 j)
  /\ String.compare (fmt06 i) (fmt06 j) = Lt.
Proof.
  intros Hij Hj.
  destruct (fmt06_six i) as (di & -> & Hsi & Hni); [lia|].
  destruct (fmt06_six j) as (dj & -> & Hsj & Hnj); [done|].
  rewrite !str_length, compare_same_size by lia.
  split; [lia|]. apply Nat.compare_lt_iff. lia.
Qed.

(** X11. Below a million frames the zero padding makes the order of the
    file names the order of the frames: for i < j the path of raw frame i
    sorts strictly before that of raw frame j, and likewise for the
    processed frames; each ordinal is then written with exactly six
    digits. *)
Theorem frame_names_sort_in_playback_order (output_dir : string) (i j : nat) :
  i < j -> j < 10 ^ 6 ->
  String.ltb (frame_path output_dir i) (frame_path output_dir j) = true
  /\ String.ltb (processed_path output_dir i) (processed_path output_dir j) = true
  /\ String.length (fmt06 i) = 6 /\ String.length (fmt06 j) = 6.
Proof.
  intros Hij Hj. destruct (fmt06_compare i j Hij Hj) as [Hlen Hlt].
  split_and!.
  - unfold String.ltb. rewrite !frame_path_eq, compare_app_prefix.
    unfold frame_filename.
    rewrite (compare_app_prefix "frames/"), (compare_app_prefix "frame_").
    by rewrite compare_app_lt.
  - unfold String.ltb. rewrite !processed_path_eq, compare_app_prefix.
    unfold processed_filename.
    rewrite (compare_app_prefix "processed_frames/"),
      (compare_app_prefix "processed_frame_").
    by rewrite compare_app_lt.
  - destruct (fmt06_six i) as (d & -> & Hs & _); [lia|]. by rewrite str_length.
  - destruct (fmt06_six j) as (d & -> & Hs & _); [lia|]. by rewrite str_length.
Qed.

End OrderFacts.

Module StemFacts.
Import World Paths Remover Batch Names PathsFacts NameFacts.








End StemFacts.

Module VideoNameFacts.
Import World Paths Remover Batch Names PathsFacts NameFacts StemFacts.

Lemma split_sep_go_plain_all l :
  forall cur, Forall plain l -> split_sep_go cur l = [rev cur ++ l].
Proof.
  induction l as [|c l IH]; intros cur Hl; cbn [split_sep_go].
  - by rewrite app_nil_r.
  - apply Forall_cons in Hl as [Hc Hl]. unfold plain in Hc. rewrite Hc.
    rewrite IH by done. cbn [rev]. by rewrite <- app_assoc.
Qed.

Lemma split_sep_go_app l1 l2 :
  forall cur, exists init,
    split_sep_go cur (l1 ++ sep :: l2) = init ++ split_sep_go [] l2.
Proof.
  induction l1 as [|c l1 IH]; intros cur; cbn [app split_sep_go].
  - exists [rev cur]. assert (Hs : is_sep sep = true) by done. by rewrite Hs.
  - destruct (is_sep c).
    + destruct (IH []) as [init ->]. by exists (rev cur :: init).
    + apply IH.
Qed.

Lemma string_of_list_ascii_app l1 l2 :
  string_of_list_ascii (l1 ++ l2)
  = string_of_list_ascii l1 +:+ string_of_list_ascii l2.
Proof.
  induction l1 as [|c l1 IH]; [done|].
  cbn [app string_of_list_ascii]. rewrite IH. reflexivity.
Qed.

Lemma last_snoc {A} (l : list A) (x d : A) : List.last (l ++ [x]) d = x.
Proof. apply List.last_last. Qed.

Lemma word_list s :
  word s -> exists c l, list_ascii_of_string s = c :: l /\ Forall ordinary (c :: l).
Proof.
  intros [Hne Hall]. destruct s as [|c s]; [done|]. by exists c, (list_ascii_of_string s).
Qed.

Lemma ordinary_plain l : Forall ordinary l -> Forall plain l.
Proof. intros H. eapply Forall_impl; [exact H|]. by intros c [? _]. Qed.

Lemma drop_while_dot (l rest : list ascii) :
  Forall ordinary l ->
  drop_while (fun c => negb (Ascii.eqb c dot)) (l ++ dot :: rest) = dot :: rest.
Proof.
  induction 1 as [|c l [_ Hc] _ IH]; [done|]. simpl. by rewrite Hc.
Qed.

(** The last component of a path that ends in [base.ext]. *)
Lemma name_of_file (pre : list ascii) (base ext : string) :
  pre = [] \/ (exists d, pre = d ++ [sep]) ->
  word base -> word ext ->
  name (string_of_list_ascii pre +:+ base +:+ "." +:+ ext) = base +:+ "." +:+ ext.
Proof.
  intros Hpre Hbase Hext.
  destruct (word_list base Hbase) as (cb & lb & Hlb & Hob).
  destruct (word_list ext Hext) as (ce & le & Hle & Hoe).
  set (n := list_ascii_of_string (base +:+ "." +:+ ext)).
  assert (Hn : n = (cb :: lb) ++ dot :: ce :: le).
  { unfold n. rewrite !list_ascii_app, Hlb, Hle. reflexivity. }
  assert (Hplain : Forall plain n).
  { rewrite Hn. apply Forall_app. split; [by apply ordinary_plain|].
    constructor; [done|by apply ordinary_plain]. }
  assert (Hkeep : negb (bool_decide (n = [])) && negb (bool_decide (n = [dot])) = true).
  { rewrite Hn. cbn [app]. rewrite !bool_decide_eq_false_2; [done| |done].
    intros [= _ Heq]. by destruct lb. }
  unfold name. cbv zeta. rewrite list_ascii_app, list_ascii_of_string_of_list_ascii.
  fold n.
  destruct Hpre as [->|[d ->]].
  - cbn [app]. rewrite split_sep_go_plain_all by done. cbn [rev app List.filter].
    rewrite Hkeep. cbn [List.last].
    unfold n. apply string_of_list_ascii_of_string.
  - rewrite <- app_assoc. cbn [app].
    destruct (split_sep_go_app d n []) as [init ->].
    rewrite split_sep_go_plain_all by done. cbn [rev app].
    rewrite List.filter_app. cbn [List.filter]. rewrite Hkeep.
    rewrite last_snoc. unfold n. apply string_of_list_ascii_of_string.
Qed.

Lemma stem_of_file (pre : list ascii) (base ext : string) :
  pre = [] \/ (exists d, pre = d ++ [sep]) ->
  word base -> word ext ->
  stem (string_of_list_ascii pre +:+ base +:+ "." +:+ ext) = base.
Proof.
  intros Hpre Hbase Hext. unfold stem. cbv zeta.
  rewrite name_of_file by done.
  destruct (word_list base Hbase) as (cb & lb & Hlb & Hob).
  destruct (word_list ext Hext) as (ce & le & Hle & Hoe).
  rewrite !list_ascii_app, Hlb, Hle.
  change (list_ascii_of_string ".") with [dot].
  cbn [app]. rewrite app_comm_cons, rev_app_distr.
  change (rev (dot :: ce :: le)) with (rev (ce :: le) ++ [dot]).
  rewrite <- app_assoc. cbn [app].
  rewrite drop_while_dot by (by apply Forall_rev).
  rewrite bool_decide_eq_false_2.
  2:{ intros Heq. apply (f_equal (@length ascii)) in Heq.
      rewrite length_rev in Heq. simpl in Heq. lia. }
  rewrite bool_decide_eq_false_2.
  2:{ cbn [length]. rewrite length_rev, length_app. simpl. lia. }
  cbn [orb]. rewrite rev_involutive, <- Hlb.
  apply string_of_list_ascii_of_string.
Qed.

(** X21. For a file [base.ext], alone or under any directory, where the
    base and the extension are non-empty and free of dots and separators,
    the video name is the base. Two discovered files that differ only in
    directory or extension are therefore given the same output directory. *)
Theorem video_name_is_base (dir1 dir2 base ext1 ext2 output_base_dir : string) :
  word base -> word ext1 -> word ext2 ->
  stem (base +:+ "." +:+ ext1) = base
  /\ stem (dir1 +:+ "/" +:+ base +:+ "." +:+ ext1) = base
  /\ join output_base_dir (stem (dir1 +:+ "/" +:+ base +:+ "." +:+ ext1))
     = join output_base_dir (stem (dir2 +:+ "/" +:+ base +:+ "." +:+ ext2)).
Proof.
  intros Hbase Hext1 Hext2.
  assert (Hdir : forall d e, word e ->
             stem (d +:+ "/" +:+ base +:+ "." +:+ e) = base).
  { intros d e He.
    pose proof (stem_of_file (list_ascii_of_string d ++ [sep]) base e) as H.
    rewrite string_of_list_ascii_app, string_of_list_ascii_of_string in H.
    change (string_of_list_ascii [sep]) with "/" in H.
    rewrite string_app_assoc in H. apply H; [right; by eexists|done|done]. }
  split_and!.
  - by apply (stem_of_file [] base ext1); [left|..].
  - by apply Hdir.
  - by rewrite !Hdir.
Qed.

End VideoNameFacts.

Module ResultFacts.
Import Flatten World Paths Remover Names PathsFacts RemoverFacts PipelineFacts
  NameFacts Examples.




End ResultFacts.

Module Runs.
Import Flatten World Paths Remover Batch Assembly Names Examples Darkroom.
Import StageFacts AssemblyFacts JobFacts NameFacts ReportFacts FormFacts
  OrderFacts StemFacts VideoNameFacts ResultFacts.

Lemma extract_frames_persists_witness :
  exists w' cnt,
    extract_frames studio "videos/a.mp4" "out" None w0
    = (w', inr (cnt, v_fps clip, v_width clip, v_height clip,
                List.map (frame_path "out") (seq 0 cnt)))
    /\ cnt = 3
    /\ fs w' !! frame_path "out" 1 = Some "png2".
Proof.
  destruct (extract_frames_persists studio "videos/a.mp4" "out" None w0 clip eq_refl)
    as (w' & cnt & Hrun & _ & Hall & Hfiles & _).
  specialize (Hall eq_refl). simpl in Hall. subst cnt.
  exists w', 3. split; [exact Hrun|]. split; [reflexivity|].
  apply (Hfiles 1 (dot_image 2 128)); [lia|reflexivity].
Defined.

Lemma extract_frames_negative_cap_witness :
  extract_frames studio "videos/a.mp4" "out" (Some (-1)%Z) w0
  = (w0, inr (0, v_fps clip, v_width clip, v_height clip, [])).
Proof.
  apply (extract_frames_negative_cap studio "videos/a.mp4" "out" (-1) w0 clip);
    [reflexivity|lia].
Defined.

Lemma unopenable_video_recorded_witness :
  exists r,
    process_single_video studio (new_processor "u2net" None)
      "videos/b.mp4" "out" true w0 = (World (fs w0) 2, inr r)
    /\ status r = "failed".
Proof.
  eexists. split.
  - apply (unopenable_video_recorded studio (new_processor "u2net" None)
             "videos/b.mp4" "out" true w0). reflexivity.
  - reflexivity.
Defined.

Lemma input_not_processed (p : string) (k : nat) :
  String.get 0 p = Some "i"%char -> p <> processed_path "out" k.
Proof.
  intros Hp Heq. rewrite Heq in Hp. vm_compute in Hp. discriminate Hp.
Qed.

Lemma process_frames_writes_outputs_only_witness :
  fs (fst (process_frames studio ["in/x.png"; "in/y.png"] "out"
             (World {["in/x.png" := "png1"; "in/y.png" := "png13"]} 0)))
    !! "in/x.png" = Some "png1".
Proof.
  rewrite (process_frames_writes_outputs_only studio).
  - reflexivity.
  - intros i _. by apply input_not_processed.
Defined.

Lemma inputs_no_alias :
  no_alias (join "out" "processed_frames") ["in/x.png"; "in/y.png"].
Proof.
  intros p k Hp. apply input_not_processed.
  apply list_elem_of_In in Hp. simpl in Hp.
  destruct Hp as [<-|[<-|[]]]; reflexivity.
Qed.

Lemma process_frames_idempotent_witness :
  exists w1 processed,
    process_frames studio ["in/x.png"; "in/y.png"] "out"
      (World {["in/x.png" := "png1"; "in/y.png" := "png2"]} 0)
    = (w1, inr processed)
    /\ process_frames studio ["in/x.png"; "in/y.png"] "out" w1
       = (w1, inr processed).
Proof.
  eexists _, _. split; [vm_compute; reflexivity|].
  apply (process_frames_idempotent studio ["in/x.png"; "in/y.png"] "out"
           (World {["in/x.png" := "png1"; "in/y.png" := "png2"]} 0)).
  - exact inputs_no_alias.
  - vm_compute. reflexivity.
Defined.

Lemma shelf_not_output (l : list string) :
  Forall (fun p => String.get 0 p = Some "p"%char /\ String.get 2 p <> Some "o"%char) l ->
  "p/out.mp4" ∉ l.
Proof.
  intros Hall Hin. rewrite Forall_forall in Hall.
  destruct (Hall _ Hin) as [_ H]. by apply H.
Qed.


Lemma create_transparent_video_grayscale_raises_witness :
  exists w',
    create_transparent_video darkroom ["p/0.png"; "p/2.png"; "p/1.png"]
      "p/out.mp4" 10 1 1 shelf
    = (w', inl (Exn "IndexError" "tuple index out of range"))
    /\ fs w' !! "p/out.mp4" = Some "mp4:1".
Proof.
  eexists. split.
  - apply (create_transparent_video_grayscale_raises darkroom ["p/0.png"]
             ["p/1.png"] "p/2.png" "p/out.mp4" 10 1 1 shelf [[7]]%Z).
    + reflexivity.
    + apply shelf_not_output. repeat constructor; discriminate.
    + assert (Hd : decoded darkroom (fs shelf) ["p/0.png"]
                   = [Img3 4 [[[10; 20; 30; 128]]]%Z]) by (vm_compute; reflexivity).
      rewrite Hd. repeat constructor. by eexists.
    + discriminate.
    + vm_compute. reflexivity.
  - vm_compute. reflexivity.
Defined.

Lemma webm_reported_iff_witness :
  exists w' r,
    process_video studio "videos/a.mp4" "out" None true w0 = (w', inr r)
    /\ (is_Some (output_webm r) <-> true = true /\ 0 < frame_count r)
    /\ (forall p, output_webm r = Some p -> p = join "out" "output_transparent.webm").
Proof.
  eexists _, _. split; [vm_compute; reflexivity|].
  eapply (webm_reported_iff studio "videos/a.mp4" "out" None true w0).
  vm_compute. reflexivity.
Defined.

Lemma process_video_end_to_end_witness :
  exists w' r,
    process_video studio "videos/a.mp4" "out" (Some 2%Z) false w0 = (w', inr r)
    /\ frame_count r <= length (v_frames clip)
    /\ forall i, i < frame_count r ->
         exists frame b,
           v_frames clip !! i = Some frame
           /\ rembg_remove studio (imwrite studio frame) = inr b
           /\ fs w' !! frame_path "out" i = Some (imwrite studio frame)
           /\ fs w' !! processed_path "out" i = Some b.
Proof.
  eexists _, _. split; [vm_compute; reflexivity|].
  eapply (process_video_end_to_end studio "videos/a.mp4" "out" (Some 2%Z) w0).
  - reflexivity.
  - vm_compute. reflexivity.
Defined.

Lemma frame_names_sort_in_playback_order_witness :
  String.ltb (frame_path "out" 3) (frame_path "out" 12) = true
  /\ String.ltb (processed_path "out" 3) (processed_path "out" 12) = true
  /\ String.length (fmt06 3) = 6 /\ String.length (fmt06 12) = 6.
Proof.
  apply (frame_names_sort_in_playback_order "out" 3 12); [lia|].
  apply Nat.ltb_lt. vm_compute. reflexivity.
Defined.

Lemma studio_has_videos : find_video_files studio "videos" None <> [].
Proof. vm_compute. discriminate. Qed.

Lemma second_batch_counts_first_witness :
  exists w1 P1 stats1 w2 P2 stats2,
    process_batch studio (new_processor "u2netp" (Some 1%Z)) "videos" "out" false None w0
    = (w1, inr (P1, stats1))
    /\ process_batch studio P1 "videos" "out2" false None w1 = (w2, inr (P2, stats2))
    /\ ((exists new, results stats2 = results stats1 ++ new
                     /\ length new = total stats2)
        /\ (Z.of_nat (success stats2) + failed stats2
            = Z.of_nat (total stats1) + Z.of_nat (total stats2))%Z
        /\ total stats2 < length (results stats2)).
Proof.
  destruct (BatchFacts.process_batch_spec studio (new_processor "u2netp" (Some 1%Z))
              "videos" "out" false None w0 studio_has_videos)
    as (w1 & new1 & t1 & Hrun1 & _).
  destruct (BatchFacts.process_batch_spec studio
              (set_results (new_processor "u2netp" (Some 1%Z))
                 (self_results (new_processor "u2netp" (Some 1%Z)) ++ new1))
              "videos" "out2" false None w1 studio_has_videos)
    as (w2 & new2 & t2 & Hrun2 & _).
  eexists w1, _, _, w2, _, _. split; [exact Hrun1|]. split; [exact Hrun2|].
  eapply (second_batch_counts_first studio (new_processor "u2netp" (Some 1%Z)));
    [reflexivity|exact studio_has_videos|exact studio_has_videos
    |exact Hrun1|exact Hrun2].
Defined.

Lemma process_batch_nothing_found_witness :
  process_batch studio (new_processor "u2net" None) "nowhere" "out" true None w0
  = (w0, inr (new_processor "u2net" None,
              {| total := 0; success := 0; failed := 0;
                 total_time := None; results := [] |})).
Proof.
  apply (process_batch_nothing_found studio). left. reflexivity.
Defined.

Lemma report_matches_statistics_witness :
  exists w' P' stats,
    process_batch studio (new_processor "u2netp" (Some 1%Z)) "videos" "out" false None w0
    = (w', inr (P', stats))
    /\ exists stamp,
         (forall text, json_dump studio (report_data P' stats stamp) = Some text ->
            fs w' !! join "out" "batch_processing_report.json" = Some text)
         /\ total_files (report_data P' stats stamp)
            = length (find_video_files studio "videos" None)
         /\ report_results (report_data P' stats stamp)
            = List.map result_info (self_results P')
         /\ (Z.of_nat (successful (report_data P' stats stamp))
             + report_failed (report_data P' stats stamp)
             = Z.of_nat (length (report_results (report_data P' stats stamp))))%Z.
Proof.
  destruct (BatchFacts.process_batch_spec studio (new_processor "u2netp" (Some 1%Z))
              "videos" "out" false None w0 studio_has_videos)
    as (w' & new & t & Hrun & _).
  eexists w', _, _. split; [exact Hrun|].
  exact (report_matches_statistics studio _ _ _ _ _ _ _ _ _ studio_has_videos Hrun).
Defined.

Lemma exit_code_zero_iff_all_succeeded_witness :
  exists w' P' stats,
    process_batch studio (new_processor "u2netp" (Some 1%Z)) "videos" "out" false None w0
    = (w', inr (P', stats))
    /\ (exit_code stats = 0%Z \/ exit_code stats = 1%Z)
    /\ (exit_code stats = 0%Z
        <-> Forall (fun r => status r = "success") (results stats)).
Proof.
  destruct (BatchFacts.process_batch_spec studio (new_processor "u2netp" (Some 1%Z))
              "videos" "out" false None w0 studio_has_videos)
    as (w' & new & t & Hrun & _).
  eexists w', _, _. split; [exact Hrun|].
  eapply (exit_code_zero_iff_all_succeeded studio (new_processor "u2netp" (Some 1%Z)));
    [reflexivity|exact Hrun].
Defined.

Lemma validated_cap_is_honoured_witness :
  exists w' r,
    GuiForm.process_video_thread studio_with_file GuiForm.digits_int filled_form w0
    = (w', inr r)
    /\ (GuiForm.max_frames filled_form = "" -> frame_count r = length (v_frames clip))
    /\ (GuiForm.max_frames filled_form <> "" ->
        exists m, GuiForm.digits_int (GuiForm.max_frames filled_form) = Some m
                  /\ (0 < m)%Z
                  /\ Z.of_nat (frame_count r)
                     = Z.min m (Z.of_nat (length (v_frames clip)))).
Proof.
  eexists _, _. split; [vm_compute; reflexivity|].
  eapply (validated_cap_is_honoured studio_with_file GuiForm.digits_int
           filled_form clip w0).
  - vm_compute. reflexivity.
  - reflexivity.
  - vm_compute. reflexivity.
Defined.


Lemma flatten_only_lightens_witness :
  (255 - 1 <= flatten_channel 255 43 <= 255)%Z.
Proof. apply (flatten_only_lightens 255 43); unfold is_u8; lia. Defined.


Lemma clip_is_word : word "clip" /\ word "mp4" /\ word "avi".
Proof. repeat split; try discriminate; repeat constructor. Qed.

Lemma video_name_is_base_witness :
  stem ("clip" +:+ "." +:+ "mp4") = "clip"
  /\ stem ("videos/day1" +:+ "/" +:+ "clip" +:+ "." +:+ "mp4") = "clip"
  /\ join "out" (stem ("videos/day1" +:+ "/" +:+ "clip" +:+ "." +:+ "mp4"))
     = join "out" (stem ("videos/day2" +:+ "/" +:+ "clip" +:+ "." +:+ "avi")).
Proof.
  destruct clip_is_word as (Hc & Hm & Ha).
  exact (video_name_is_base "videos/day1" "videos/day2" "clip" "mp4" "avi" "out"
           Hc Hm Ha).
Defined.


End Runs.
